(** * Conan build-environment provisioning ([lib/buildenvsetup/ceconan.ts])

    A shallow embedding of [BuildEnvSetupCeConanDirect]: the package matcher
    ([findMatchingHash]), the build-descriptor resolver
    ([getConanBuildProperties]), the archive extractor
    ([downloadAndExtractPackage] with its zip-slip guard) and the
    orchestration ([download], [setup]).

    Asynchronous code is embedded sequentially: a promise is the outcome it
    settles with, the network is a table of responses, the file system is a
    finite map of regular files with a set of directories, and every
    observable effect is appended to a trace. *)

From Stdlib Require Import Ascii String ZArith Lia DecimalString.
From stdpp Require Import gmap strings list fin_maps.

#[local] Set Warnings "-clear-no-such-hyp".

(** ** Node's [path] module (POSIX flavour)

    [ceconan.ts] imports [path] and calls [join], [basename], [dirname] and
    [resolve]; the definitions below follow Node's [path.posix], working on
    the ["/"]-separated segments of a string. *)
Module path.

Definition is_sep (c : ascii) : bool := bool_decide (c = "/"%char).

(** [s.split("/")]: never empty, [split "" = [""]]. *)
Fixpoint split (s : string) : list string :=
  match s with
  | EmptyString => [EmptyString]
  | String c s' =>
      if is_sep c then EmptyString :: split s'
      else match split s' with
           | seg :: segs => String c seg :: segs
           | [] => [String c EmptyString]
           end
  end.

(** One step of [normalizeString]: [res] is the stack of segments kept so
    far, innermost first. *)
Definition push_segment (allowAboveRoot : bool) (res : list string) (seg : string)
  : list string :=
  if bool_decide (seg = "") || bool_decide (seg = ".") then res
  else if bool_decide (seg = "..") then
    match res with
    | last :: res' =>
        if bool_decide (last = "..")
        then (if allowAboveRoot then ".." :: res else res)
        else res'
    | [] => if allowAboveRoot then [".."] else []
    end
  else seg :: res.

Definition normalizeString (p : string) (allowAboveRoot : bool) : string :=
  String.concat "/" (rev (fold_left (push_segment allowAboveRoot) (split p) [])).

Definition isAbsolute (p : string) : bool :=
  match p with
  | String c _ => is_sep c
  | EmptyString => false
  end.

Fixpoint ends_with_sep (p : string) : bool :=
  match p with
  | EmptyString => false
  | String c EmptyString => is_sep c
  | String _ p' => ends_with_sep p'
  end.

Definition normalize (p : string) : string :=
  if bool_decide (p = "") then "."
  else
    let n := normalizeString p (negb (isAbsolute p)) in
    if bool_decide (n = "") then
      (if isAbsolute p then "/" else if ends_with_sep p then "./" else ".")
    else
      let n' := if ends_with_sep p then n +:+ "/" else n in
      if isAbsolute p then "/" +:+ n' else n'.

(** [path.join(...args)]: the non-empty arguments, glued with ["/"], then
    normalised. *)
Definition join (args : list string) : string :=
  match filter (λ a, a ≠ "") args with
  | [] => "."
  | parts => normalize (String.concat "/" parts)
  end.

Definition chars (s : string) : list ascii := list_ascii_of_string s.
Definition of_chars (l : list ascii) : string := string_of_list_ascii l.

Fixpoint drop_while (f : ascii → bool) (l : list ascii) : list ascii :=
  match l with
  | c :: l' => if f c then drop_while f l' else l
  | [] => []
  end.

Fixpoint take_while (f : ascii → bool) (l : list ascii) : list ascii :=
  match l with
  | c :: l' => if f c then c :: take_while f l' else []
  | [] => []
  end.

(** [path.dirname]: scanning from the right (never looking at index 0),
    skip the trailing separators, skip the last segment, and cut at the
    separator found there. *)
Definition dirname (p : string) : string :=
  match p with
  | EmptyString => "."
  | String c0 rest =>
      let hasRoot := is_sep c0 in
      let before_last :=
        drop_while (λ c, negb (is_sep c)) (drop_while is_sep (rev (chars rest))) in
      match before_last with
      | [] => if hasRoot then "/" else "."
      | _ :: kept =>
          if hasRoot && bool_decide (kept = []) then "//"
          else String c0 (of_chars (rev kept))
      end
  end.

(** [path.basename] without a suffix argument: the last segment, trailing
    separators ignored. *)
Definition basename (p : string) : string :=
  of_chars (rev (take_while (λ c, negb (is_sep c)) (drop_while is_sep (rev (chars p))))).

(** [path.resolve(p)] with one argument; [cwd] is [process.cwd()], an
    absolute path. *)
Definition resolve (cwd p : string) : string :=
  if bool_decide (p = "") then "/" +:+ normalizeString (cwd +:+ "/") false
  else if isAbsolute p then "/" +:+ normalizeString (p +:+ "/") false
  else "/" +:+ normalizeString (cwd +:+ "/" +:+ p +:+ "/") false.

End path.

(** [String.prototype.startsWith]. *)
Definition startsWith (s searchString : string) : bool := String.prefix searchString s.


(** ** JavaScript values used by the class *)

(** A property read with [props(name, false)]: a flag or a string. *)
Inductive prop :=
| PBool (b : bool)
| PString (s : string).

(** Truthiness, as tested by [!x], [x || y] and [if (x)]. *)
Definition truthy_string (s : string) : bool := negb (bool_decide (s = "")).

Definition truthy (p : prop) : bool :=
  match p with
  | PBool b => b
  | PString s => truthy_string s
  end.

(** Rendering inside a template literal. *)
Definition show (p : prop) : string :=
  match p with
  | PBool true => "true"
  | PBool false => "false"
  | PString s => s
  end.

(** [x || y] for an optional string [x]: [undefined] and [""] are falsy. *)
Definition or_else (x : option string) (y : string) : string :=
  match x with
  | Some s => if truthy_string s then s else y
  | None => y
  end.

(** ** Build descriptor and package matcher *)

Record ConanBuildProperties := {
  os : string;
  build_type : string;
  compiler : string;
  compiler_version : string;   (* 'compiler.version' *)
  compiler_libcxx : string;    (* 'compiler.libcxx' *)
  arch : string;
  stdver : string;
  flagcollection : string;
}.

(** The own enumerable properties of the descriptor, in the order of the
    object literal: what [_.all(buildProperties, (val, key) => ...)] visits. *)
Definition entries (p : ConanBuildProperties) : list (string * string) :=
  [ ("os", os p);
    ("build_type", build_type p);
    ("compiler", compiler p);
    ("compiler.version", compiler_version p);
    ("compiler.libcxx", compiler_libcxx p);
    ("arch", arch p);
    ("stdver", stdver p);
    ("flagcollection", flagcollection p) ].

(** A candidate package of the search response: [elem.settings] is an object
    from attribute name to string; a missing attribute reads [undefined]. *)
Record candidate := { settings : gmap string string }.

(** The search response: hash to candidate, in the object's iteration order. *)
Definition possibleBuilds := list (string * candidate).

(** [val === elem.settings[key]]. *)
Definition strict_eq (val : string) (x : option string) : bool :=
  bool_decide (x = Some val).

(** The callback given to [_.all] in [findMatchingHash]. *)
Definition attribute_matches (elem : candidate) (val key : string) : bool :=
  if (bool_decide (key = "compiler") || bool_decide (key = "compiler.version"))
     && strict_eq "cshared" (settings elem !! key)
  then true
  else if bool_decide (key = "compiler.libcxx")
          && strict_eq "cshared" (settings elem !! "compiler")
  then true
  else strict_eq val (settings elem !! key).

(** [_.all(obj, pred)] over the entries of an object. *)
Definition all_entries (obj : list (string * string)) (pred : string → string → bool) : bool :=
  forallb (λ kv, pred kv.2 kv.1) obj.

Definition candidate_matches (buildProperties : list (string * string)) (elem : candidate)
  : bool :=
  all_entries buildProperties (attribute_matches elem).

(** [_.findKey(obj, pred)]: the first key whose value satisfies [pred],
    [undefined] ([None]) when there is none. *)
Fixpoint findKey {A} (obj : list (string * A)) (pred : A → bool) : option string :=
  match obj with
  | [] => None
  | (k, v) :: obj' => if pred v then Some k else findKey obj' pred
  end.

Definition findMatchingHash (buildProperties : ConanBuildProperties)
    (builds : possibleBuilds) : option string :=
  findKey builds (candidate_matches (entries buildProperties)).

(** ** Text helpers: template literals and the built-ins they call *)

Definition hex_digit (upper : bool) (n : N) : ascii :=
  if (n <? 10)%N then ascii_of_N (48 + n)
  else ascii_of_N ((if upper then 55 else 87) + n).

Definition is_alnum (c : ascii) : bool :=
  let n := N_of_ascii c in
  ((48 <=? n) && (n <=? 57) || (65 <=? n) && (n <=? 90) || (97 <=? n) && (n <=? 122))%N.

(** [encodeURIComponent], on the bytes of the string: everything except
    [A-Z a-z 0-9 - _ . ! ~ * ' ( )] becomes [%XX]. *)
Definition uri_unreserved (c : ascii) : bool :=
  is_alnum c || bool_decide (c ∈ path.chars "-_.!~*'()").

Fixpoint encodeURIComponent (s : string) : string :=
  match s with
  | EmptyString => EmptyString
  | String c s' =>
      if uri_unreserved c then String c (encodeURIComponent s')
      else
        let n := N_of_ascii c in
        String "%" (String (hex_digit true (n / 16)) (String (hex_digit true (n mod 16))
          (encodeURIComponent s')))
  end.

Definition dquote : ascii := ascii_of_N 34.
Definition backslash : ascii := ascii_of_N 92.

(** [JSON.stringify] of a string. *)
Fixpoint json_escape (s : string) : string :=
  match s with
  | EmptyString => EmptyString
  | String c s' =>
      let n := N_of_ascii c in
      (if bool_decide (c = dquote) then String backslash (String dquote EmptyString)
       else if bool_decide (c = backslash) then String backslash (String backslash EmptyString)
       else if (n =? 8)%N then "\b"
       else if (n =? 9)%N then "\t"
       else if (n =? 10)%N then "\n"
       else if (n =? 12)%N then "\f"
       else if (n =? 13)%N then "\r"
       else if (n <? 32)%N
            then "\u00" +:+ String (hex_digit false (n / 16))
                                  (String (hex_digit false (n mod 16)) EmptyString)
       else String c EmptyString) +:+ json_escape s'
  end.

Definition json_string (s : string) : string :=
  String dquote (json_escape s +:+ String dquote EmptyString).

(** [JSON.stringify(buildProperties)]. *)
Definition JSON_stringify (p : ConanBuildProperties) : string :=
  "{" +:+ String.concat ","
            (map (λ kv, json_string kv.1 +:+ ":" +:+ json_string kv.2) (entries p))
      +:+ "}".

Definition string_of_N (n : N) : string := NilZero.string_of_uint (N.to_uint n).
Definition string_of_Z (z : Z) : string := NilZero.string_of_int (Z.to_int z).

(** ** Promises, effects and the outside world *)

(** A settled promise. A rejection reason is the error's message. *)
Inductive promise (A : Type) :=
| Fulfilled (value : A)
| Rejected (reason : string).
Arguments Fulfilled {A} value.
Arguments Rejected {A} reason.

(** [Promise.all]: the values in order when every promise fulfils, else a
    rejection. With several rejections JavaScript reports the one that
    settles first; the embedding reports the first in the array. *)
Fixpoint Promise_all {A} (ps : list (promise A)) : promise (list A) :=
  match ps with
  | [] => Fulfilled []
  | Rejected e :: _ => Rejected e
  | Fulfilled a :: ps' =>
      match Promise_all ps' with
      | Fulfilled l => Fulfilled (a :: l)
      | Rejected e => Rejected e
      end
  end.

Inductive level := LError | LWarn | LDebug.

(** What the class does to the outside world. [Pipe file data] is [data]
    written to the open [file]; [Unhandled error] is an ['error'] event on a
    stream that nothing listens to. *)
Inductive event :=
| Log (l : level) (msg : string)
| Fetch (url : string)
| Mkdirp (dir : string)
| CreateWriteStream (file : string)
| Pipe (file : string) (data : string)
| Unhandled (error : string).

#[export] Instance level_eq_dec : EqDecision level.
Proof. solve_decision. Defined.

#[export] Instance event_eq_dec : EqDecision event.
Proof. solve_decision. Defined.

(** One entry of a tar stream: the header fields the handler reads, the
    bytes its stream delivers, and the error the stream emits instead of
    ['end'], if any. *)
Record entry := {
  name : string;
  size : N;
  data : string;
  fault : option string;
}.

(** How the gunzip/tar pipeline ends after the entries it delivered. *)
Inductive ending :=
| Finish
| TarError (err : string)
| GunzipError (err : string).

Record tarball := {
  tar_entries : list entry;
  tar_ending : ending;
  (** [endTime - startTime], in nanoseconds of [process.hrtime.bigint()] *)
  elapsed : Z;
}.

(** Answer to [fetch(packageUrl)]. *)
Inductive package_response :=
| PackageFetchFailed (err : string)
| PackageResponse (status : N) (body : option tarball).

(** Answer to the search request of [getAllPossibleBuilds]. A JSON body that
    is falsy ([null], [false], [0]) reads [None]. *)
Inductive search_response :=
| SearchFetchFailed (err : string)
| SearchNotFound
| SearchBadJson (err : string)
| SearchJson (body : option possibleBuilds).

(** Answer to the [download_urls] request of [getPackageUrl]: the field
    ['conan_package.tgz'] of the body, or the failure of [fetch],
    [response.json()] or the field access. *)
Inductive urls_response :=
| UrlsFailed (err : string)
| UrlsJson (conan_package_tgz : option string).

Record world := {
  cwd : string;
  search : string → search_response;
  download_urls : string → urls_response;
  package : string → package_response;
}.

(** The file system: the regular files of the disk with their contents, and
    its directories, by absolute path. The root [/] is always there.
    Permissions, links and resource limits are not part of it. *)
Record filesystem := Disk {
  files : gmap string string;
  directories : gset string;
}.

(** The directories above the absolute path [p], outermost first. *)
Definition above (p : string) : list string :=
  let segs := rev (fold_left (path.push_segment false) (path.split p) []) in
  map (λ k, "/" +:+ String.concat "/" (take k segs)) (seq 1 (length segs - 1)).

(** A file system is written as the finite map of its regular files: [∅] is
    the bare root, [fs !! p] reads the regular file [p], and
    [<[p := bytes]> fs] is [fs] with the regular file [p] holding [bytes], in
    the directories that lead to it. *)
#[export] Instance filesystem_empty : Empty filesystem := Disk ∅ ∅.

#[export] Instance filesystem_lookup : Lookup string string filesystem :=
  λ p fs, files fs !! p.

#[export] Instance filesystem_insert : Insert string string filesystem :=
  λ p bytes fs,
    Disk (<[p := bytes]> (files fs)) (directories fs ∪ list_to_set (above p)).

#[export] Instance filesystem_singleton : SingletonM string string filesystem :=
  λ p bytes, <[p := bytes]> ∅.

(** An effectful computation: from the file system to the events it emits,
    the file system it leaves and its result. *)
Definition io (A : Type) : Type := filesystem → list event * filesystem * A.

Definition ret {A} (a : A) : io A := λ fs, ([], fs, a).

Definition bind {A B} (m : io A) (k : A → io B) : io B :=
  λ fs, let '(t1, fs1, a) := m fs in
        let '(t2, fs2, b) := k a fs1 in
        (t1 ++ t2, fs2, b).

#[export] Instance io_ret : MRet io := @ret.
#[export] Instance io_bind : MBind io := λ A B k m, bind m k.

Definition emit (e : event) : io unit := λ fs, ([e], fs, tt).

Definition trace_of {A} (r : list event * filesystem * A) : list event := r.1.1.
Definition fs_of {A} (r : list event * filesystem * A) : filesystem := r.1.2.
Definition result_of {A} (r : list event * filesystem * A) : A := r.2.

(** The logger. [${error}] renders an error by its message. *)
Definition logger (l : level) (msg : string) : io unit := emit (Log l msg).

(** The directory [d] and the directories above it, as absolute paths. *)
Definition ancestry (w : world) (d : string) : list string :=
  let segs := rev (fold_left (path.push_segment false)
                             (path.split (path.resolve (cwd w) d)) []) in
  map (λ k, "/" +:+ String.concat "/" (take k segs)) (seq 1 (length segs)).

Definition is_file (fs : filesystem) (p : string) : bool :=
  bool_decide (is_Some (fs !! p)).

(** The error [mkdirp(d)] throws, if any: a regular file sits at [d]
    ([EEXIST]) or above it ([ENOTDIR]). *)
Definition mkdirp_error (w : world) (fs : filesystem) (d : string) : option string :=
  if is_file fs (path.resolve (cwd w) d)
  then Some ("EEXIST: file already exists, mkdir '" +:+ d +:+ "'")
  else if existsb (is_file fs) (ancestry w d)
  then Some ("ENOTDIR: not a directory, mkdir '" +:+ d +:+ "'")
  else None.

(** [mkdirp(d)] of fs-extra: makes [d] and its missing parents, or throws. *)
Definition mkdirp (w : world) (d : string) : io (option string) :=
  λ fs,
    match mkdirp_error w fs d with
    | Some error => ([Mkdirp d], fs, Some error)
    | None =>
        ([Mkdirp d],
         Disk (files fs) (directories fs ∪ list_to_set (ancestry w d)),
         None)
    end.

Definition is_directory (fs : filesystem) (p : string) : bool :=
  bool_decide (p = "/") || bool_decide (p ∈ directories fs).

(** The error of opening [file] with flag ['w'] (create or truncate), if any:
    a regular file sits above it ([ENOTDIR]), a directory above it is missing
    ([ENOENT]), or [file] names a directory, by a trailing separator or
    because one is there ([EISDIR]). *)
Definition open_error (w : world) (fs : filesystem) (file : string) : option string :=
  let p := path.resolve (cwd w) file in
  if existsb (is_file fs) (above p) || (path.ends_with_sep file && is_file fs p)
  then Some ("ENOTDIR: not a directory, open '" +:+ file +:+ "'")
  else if negb (forallb (is_directory fs) (above p))
  then Some ("ENOENT: no such file or directory, open '" +:+ file +:+ "'")
  else if path.ends_with_sep file || is_directory fs p
  then Some ("EISDIR: illegal operation on a directory, open '" +:+ file +:+ "'")
  else None.

(** A write stream: open on a regular file, or broken by the error of its
    open. *)
Inductive WriteStream :=
| Opened (p : string)
| Broken (error : string).

(** [fs.createWriteStream(file)] opens [file] with flag ['w']. When the open
    succeeds the file exists and is empty. When it fails no file is made and
    the stream emits ['error'], to which the class does not listen; what the
    process does about that is not followed, the trace records the event.
    In Node the open is asynchronous; here it is done where the stream is
    made, so the state a handler leaves is the disk once its stream
    operations have completed, and an extraction handles every entry on the
    disk its predecessors left. *)
Definition createWriteStream (w : world) (file : string) : io WriteStream :=
  λ fs,
    match open_error w fs file with
    | Some error => ([CreateWriteStream file; Unhandled error], fs, Broken error)
    | None =>
        ([CreateWriteStream file],
         <[path.resolve (cwd w) file := EmptyString]> fs,
         Opened (path.resolve (cwd w) file))
    end.

(** [stream.pipe(filestream)] until the entry stream ends or fails; a broken
    stream takes no byte, and the entry stream is drained all the same.
    [file] is the name [filestream] was made with. *)
Definition pipe (filestream : WriteStream) (file : string) (bytes : string) : io unit :=
  λ fs,
    match filestream with
    | Opened p => ([Pipe file bytes], <[p := bytes]> fs, tt)
    | Broken _ => ([], fs, tt)
    end.

(** ** The class *)

(** A requested library, [LibraryVersion]: the fields [download] reads. *)
Record LibraryVersion := {
  version : string;
  lookupname : option string;
  lookupversion : option string;
  packagedheaders : bool;
}.

(** What the class inherits from [BuildEnvSetupBase], declared in
    [./base.js]: the members it uses, taken as parameters. [Key] is the type
    of the compilation key handed to [setup]. *)
Record BuildEnvSetupBase (Key : Type) := {
  compiler_id : string;                       (* this.compiler.id *)
  compilerTypeOrGCC : string;
  getTarget : Key → string;
  getLibcxx : Key → string;
  hasBinariesToLink : LibraryVersion → bool;
  shouldDownloadPackage : LibraryVersion → bool;
}.
Arguments compiler_id {Key}.
Arguments compilerTypeOrGCC {Key}.
Arguments getTarget {Key}.
Arguments getLibcxx {Key}.
Arguments hasBinariesToLink {Key}.
Arguments shouldDownloadPackage {Key}.

Record BuildEnvSetupCeConanDirect (Key : Type) := {
  super : BuildEnvSetupBase Key;
  host : prop;
  onlyonstaticliblink : prop;
  extractAllToRoot : bool;
}.
Arguments super {Key}.
Arguments host {Key}.
Arguments onlyonstaticliblink {Key}.
Arguments extractAllToRoot {Key}.

(** [constructor(compilerInfo, env)]; [props name] stands for
    [compilerInfo.buildenvsetup.props(name, false)]. *)
Definition constructor {Key} (base : BuildEnvSetupBase Key) (props : string → prop)
  : BuildEnvSetupCeConanDirect Key :=
  {| super := base;
     host := props "host";
     onlyonstaticliblink := props "onlyonstaticliblink";
     extractAllToRoot := false |}.

Record BuildEnvDownloadInfo := {
  step : string;
  packageUrl : string;
  time : string;
}.

Section Methods.
Context {Key : Type}.
Variable this : BuildEnvSetupCeConanDirect Key.
Variable w : world.

Definition search_url (libid version : string) : string :=
  let encLibid := encodeURIComponent libid in
  let encVersion := encodeURIComponent version in
  show (host this) +:+ "/v1/conans/" +:+ encLibid +:+ "/" +:+ encVersion +:+ "/"
    +:+ encLibid +:+ "/" +:+ encVersion +:+ "/search".

Definition getAllPossibleBuilds (libid version : string)
  : io (promise (option possibleBuilds)) :=
  let url := search_url libid version in
  emit (Fetch url);;
  match search w url with
  | SearchNotFound => mret (Rejected ("Not found (" +:+ url +:+ ")"))
  | SearchJson body => mret (Fulfilled body)
  | SearchBadJson err => mret (Rejected err)
  | SearchFetchFailed err =>
      logger LError ("Unexpected error during getAllPossibleBuilds(" +:+ libid +:+ ", "
                     +:+ version +:+ "): " +:+ err);;
      mret (Rejected err)
  end.

Definition download_urls_url (libid version hash : string) : string :=
  let encLibid := encodeURIComponent libid in
  let encVersion := encodeURIComponent version in
  let libUrl := show (host this) +:+ "/v1/conans/" +:+ encLibid +:+ "/" +:+ encVersion
                  +:+ "/" +:+ encLibid +:+ "/" +:+ encVersion in
  libUrl +:+ "/packages/" +:+ hash +:+ "/download_urls".

Definition getPackageUrl (libid version hash : string) : io (promise string) :=
  let url := download_urls_url libid version hash in
  emit (Fetch url);;
  match download_urls w url with
  | UrlsFailed err => mret (Rejected err)
  | UrlsJson packageURL =>
      match packageURL with
      | Some u =>
          if truthy_string u then mret (Fulfilled u)
          else mret (Rejected "Unable to get package download URL from conan.")
      | None => mret (Rejected "Unable to get package download URL from conan.")
      end
  end.

Definition getDestinationFilepath (downloadPath zippedPath libId : string) : string :=
  if extractAllToRoot this then
    let filename := path.basename zippedPath in
    path.join [downloadPath; filename]
  else
    path.join [downloadPath; libId; zippedPath].

(** Outcome of the ['entry'] handler: it called [next()], or it rejected the
    promise (and the tar stream stays where it is). *)
Inductive handled :=
| Next
| Reject (err : string).

(** The ['entry'] handler of [downloadAndExtractPackage]. *)
Definition on_entry (libId version downloadPath : string) (e : entry) : io handled :=
  let filepath := getDestinationFilepath downloadPath (name e) libId in
  let resolved := path.resolve (cwd w) (path.dirname filepath) in
  if negb (startsWith resolved downloadPath) then
    logger LError ("Library " +:+ libId +:+ "/" +:+ version
                   +:+ " is using a zip-slip, skipping file");;
    mret Next
  else
    thrown ← (if negb (extractAllToRoot this) then mkdirp w (path.dirname filepath)
              else mret None);
    match thrown with
    | Some error =>
        logger LError ("Error in entry handling: " +:+ error);;
        mret (Reject error)
    | None =>
        filestream ← createWriteStream w filepath;
        if bool_decide (size e = 0%N) then
          mret Next
        else
          pipe filestream filepath (data e);;
          match fault e with
          | Some error =>
              logger LError ("Error in stream handling: " +:+ error);;
              mret (Reject error)
          | None => mret Next
          end
    end.

(** The tar stream hands over one entry at a time and waits for [next()]. *)
Fixpoint extract (libId version downloadPath : string) (es : list entry)
  : io (option string) :=
  match es with
  | [] => mret None
  | e :: es' =>
      h ← on_entry libId version downloadPath e;
      match h with
      | Next => extract libId version downloadPath es'
      | Reject error => mret (Some error)
      end
  end.

Definition downloadAndExtractPackage (libId version downloadPath packageUrl : string)
  : io (promise BuildEnvDownloadInfo) :=
  emit (Fetch packageUrl);;
  match package w packageUrl with
  | PackageFetchFailed error =>
      logger LError ("Error in request handling: " +:+ error);;
      mret (Rejected error)
  | PackageResponse status body =>
      match body with
      | Some tgz =>
          if ((200 <=? status) && (status <=? 299))%N then
            rejected ← extract libId version downloadPath (tar_entries tgz);
            match rejected with
            | Some error => mret (Rejected error)
            | None =>
                match tar_ending tgz with
                | Finish =>
                    mret (Fulfilled
                      {| step := "Download of " +:+ libId +:+ " " +:+ version;
                         packageUrl := packageUrl;
                         time := string_of_Z (elapsed tgz `quot` 1000000) |})
                | TarError error =>
                    logger LError ("Error in tar handling: " +:+ error);;
                    mret (Rejected error)
                | GunzipError error =>
                    logger LError ("Error in gunzip handling: " +:+ error);;
                    mret (Rejected error)
                end
            end
          else
            logger LError ("Error requesting package from conan: " +:+ string_of_N status
                           +:+ " for " +:+ packageUrl);;
            mret (Rejected ("Unable to request library from conan: " +:+ string_of_N status))
      | None =>
          logger LError ("Error requesting package from conan: " +:+ string_of_N status
                         +:+ " for " +:+ packageUrl);;
          mret (Rejected ("Unable to request library from conan: " +:+ string_of_N status))
      end
  end.

Definition getConanBuildProperties (key : Key) : ConanBuildProperties :=
  let arch := getTarget (super this) key in
  let libcxx := getLibcxx (super this) key in
  let stdver := EmptyString in
  let flagcollection := EmptyString in
  {| os := "Linux";
     build_type := "Debug";
     compiler := compilerTypeOrGCC (super this);
     compiler_version := compiler_id (super this);
     compiler_libcxx := libcxx;
     arch := arch;
     stdver := stdver;
     flagcollection := flagcollection |}.

(** An element of [allLibraryBuilds]; [lb_possibleBuilds] is the value the
    promise [getAllPossibleBuilds(...).catch(() => false)] settles with,
    [None] for a falsy one. *)
Record LibraryBuilds := {
  lb_id : string;
  lb_version : string;
  lb_lookupname : option string;
  lb_lookupversion : option string;
  lb_possibleBuilds : option possibleBuilds;
}.

(** [p.catch(() => false)], read as a condition. *)
Definition catch_false {A} (p : promise (option A)) : option A :=
  match p with
  | Fulfilled v => v
  | Rejected _ => None
  end.

(** The [_.each] loop of [download]: one search per library that has
    packaged headers or binaries to link. *)
Fixpoint start_listings (libraryDetails : list (string * LibraryVersion))
  : io (list LibraryBuilds) :=
  match libraryDetails with
  | [] => mret []
  | (libId, details) :: rest =>
      if packagedheaders details || hasBinariesToLink (super this) details then
        let lname := or_else (lookupname details) libId in
        let lversion := or_else (lookupversion details) (version details) in
        builds ← getAllPossibleBuilds lname lversion;
        others ← start_listings rest;
        mret ({| lb_id := libId;
                 lb_version := version details;
                 lb_lookupname := lookupname details;
                 lb_lookupversion := lookupversion details;
                 lb_possibleBuilds := catch_false builds |} :: others)
      else start_listings rest
  end.

(** [getPackageUrl(...).then(downloadUrl => downloadAndExtractPackage(...))]. *)
Definition resolve_and_extract (libId lookupname lookupversion hash dirPath : string)
  : io (promise BuildEnvDownloadInfo) :=
  url ← getPackageUrl lookupname lookupversion hash;
  match url with
  | Fulfilled downloadUrl => downloadAndExtractPackage libId lookupversion dirPath downloadUrl
  | Rejected error => mret (Rejected error)
  end.

(** The body of the [for ... of allLibraryBuilds] loop: the promise pushed on
    [allDownloads], if one is. *)
Definition provision_one (buildProperties : ConanBuildProperties) (dirPath : string)
    (libVerBuilds : LibraryBuilds) : io (option (promise BuildEnvDownloadInfo)) :=
  let lookupname := or_else (lb_lookupname libVerBuilds) (lb_id libVerBuilds) in
  let lookupversion := or_else (lb_lookupversion libVerBuilds) (lb_version libVerBuilds) in
  let libVer := lookupname +:+ "/" +:+ lookupversion in
  match lb_possibleBuilds libVerBuilds with
  | Some builds =>
      match findMatchingHash buildProperties builds with
      | Some hash =>
          if truthy_string hash then
            logger LDebug ("Found conan hash " +:+ hash +:+ " for " +:+ libVer);;
            d ← resolve_and_extract (lb_id libVerBuilds) lookupname lookupversion hash dirPath;
            mret (Some d)
          else
            logger LWarn ("No build found for " +:+ libVer +:+ " matching "
                          +:+ JSON_stringify buildProperties);;
            mret None
      | None =>
          logger LWarn ("No build found for " +:+ libVer +:+ " matching "
                        +:+ JSON_stringify buildProperties);;
          mret None
      end
  | None =>
      logger LWarn ("Library " +:+ libVer +:+ " not available");;
      mret None
  end.

Fixpoint provision_all (buildProperties : ConanBuildProperties) (dirPath : string)
    (allLibraryBuilds : list LibraryBuilds) : io (list (promise BuildEnvDownloadInfo)) :=
  match allLibraryBuilds with
  | [] => mret []
  | libVerBuilds :: rest =>
      pushed ← provision_one buildProperties dirPath libVerBuilds;
      allDownloads ← provision_all buildProperties dirPath rest;
      mret (match pushed with
            | Some d => d :: allDownloads
            | None => allDownloads
            end)
  end.

Definition download (key : Key) (dirPath : string)
    (libraryDetails : list (string * LibraryVersion))
  : io (promise (list BuildEnvDownloadInfo)) :=
  allLibraryBuilds ← start_listings libraryDetails;
  let buildProperties := getConanBuildProperties key in
  allDownloads ← provision_all buildProperties dirPath allLibraryBuilds;
  mret (Promise_all allDownloads).

(** [_.pick(obj, predicate)]. *)
Definition pick {A} (obj : list (string * A)) (pred : A → bool) : list (string * A) :=
  filter (λ kv, pred kv.2 = true) obj.

Definition setup (key : Key) (dirPath : string)
    (libraryDetails : list (string * LibraryVersion)) (binary : bool)
  : io (promise (list BuildEnvDownloadInfo)) :=
  if negb (truthy (host this)) then mret (Fulfilled [])
  else if truthy (onlyonstaticliblink this) && negb binary then mret (Fulfilled [])
  else
    let librariesToDownload := pick libraryDetails (shouldDownloadPackage (super this)) in
    download key dirPath librariesToDownload.

End Methods.

(** ** A fixture: one library on a small repository *)
Module Fixture.

Definition gcc11 : ConanBuildProperties :=
  {| os := "Linux"; build_type := "Debug"; compiler := "gcc"; compiler_version := "11";
     compiler_libcxx := "libstdc++"; arch := "x86_64"; stdver := EmptyString;
     flagcollection := EmptyString |}.

Definition base : BuildEnvSetupBase unit :=
  {| compiler_id := "11";
     compilerTypeOrGCC := "gcc";
     getTarget := λ _, "x86_64";
     getLibcxx := λ _, "libstdc++";
     hasBinariesToLink := λ _, true;
     shouldDownloadPackage := λ _, true |}.

Definition props (name : string) : prop :=
  if bool_decide (name = "host") then PString "https://conan.example" else PBool false.

Definition ceconan : BuildEnvSetupCeConanDirect unit := constructor base props.

(** An object in flatten mode, as a subclass may set it up. *)
Definition flat : BuildEnvSetupCeConanDirect unit :=
  {| super := base;
     host := props "host";
     onlyonstaticliblink := props "onlyonstaticliblink";
     extractAllToRoot := true |}.

Definition file (n d : string) : entry :=
  {| name := n; size := N.of_nat (String.length d); data := d; fault := None |}.

Definition mylib_tgz : tarball :=
  {| tar_entries := [file "include/foo.h" "#pragma once"; file "lib/libfoo.a" "!<arch>"];
     tar_ending := Finish;
     elapsed := 42000000 |}.

Definition exact : candidate := {| settings := list_to_map (entries gcc11) |}.

(** A shared-library package whose [compiler] is the sentinel but whose
    [compiler.version] is an ordinary version. *)
Definition cshared_v11 : candidate :=
  {| settings := <["compiler" := "cshared"]> (list_to_map (entries gcc11)) |}.

Definition two_exact : possibleBuilds := [("aaa", exact); ("bbb", exact)].

Definition gcc12 : ConanBuildProperties :=
  {| os := "Linux"; build_type := "Debug"; compiler := "gcc"; compiler_version := "12";
     compiler_libcxx := "libstdc++"; arch := "x86_64"; stdver := EmptyString;
     flagcollection := EmptyString |}.

Definition server (tgz : tarball) : world :=
  {| cwd := "/home/ce";
     search := λ url,
       if bool_decide (url = "https://conan.example/v1/conans/mylib/1.0/mylib/1.0/search")
       then SearchJson (Some [("abc123", exact)]) else SearchNotFound;
     download_urls := λ url,
       if bool_decide (url = "https://conan.example/v1/conans/mylib/1.0/mylib/1.0/packages/abc123/download_urls")
       then UrlsJson (Some "https://conan.example/files/mylib.tgz") else UrlsJson None;
     package := λ url,
       if bool_decide (url = "https://conan.example/files/mylib.tgz")
       then PackageResponse 200 (Some tgz) else PackageResponse 404 None |}.

Definition mylib : LibraryVersion :=
  {| version := "1.0"; lookupname := None; lookupversion := None; packagedheaders := true |}.

(** The same repository, but its [download_urls] answer for the matched hash
    has no ['conan_package.tgz'] field. *)
Definition server_without_url : world :=
  {| cwd := "/home/ce";
     search := search (server mylib_tgz);
     download_urls := λ _, UrlsJson None;
     package := package (server mylib_tgz) |}.

(** An archive whose first entry climbs out of [/tmp/build] into the sibling
    directory [/tmp/build-evil]. *)
Definition sibling_tgz : tarball :=
  {| tar_entries := [file "../../build-evil/pwn" "payload"; file "include/foo.h" "#pragma once"];
     tar_ending := Finish;
     elapsed := 42000000 |}.

(** The archive of the specification's example: an entry ["../../evil"] among
    well-formed ones. *)
Definition evil_tgz : tarball :=
  {| tar_entries := [file "include/foo.h" "#pragma once"; file "../../evil" "payload";
                     file "lib/libfoo.a" "!<arch>"];
     tar_ending := Finish;
     elapsed := 42000000 |}.

(** An archive of one empty header below [include]. *)
Definition nested_tgz : tarball :=
  {| tar_entries := [file "include/foo.h" EmptyString];
     tar_ending := Finish;
     elapsed := 42000000 |}.

Definition empty_tgz : tarball :=
  {| tar_entries := [file "include/empty.h" EmptyString; file "lib/libfoo.a" "!<arch>"];
     tar_ending := Finish;
     elapsed := 42000000 |}.

End Fixture.


(** ** Notions used to state the properties *)

(** Containment of paths by components: the segments of [root], normalised,
    start the segments of [p]. This is what lying under a directory means,
    as opposed to having its name as a string prefix. *)
Definition lies_under (root p : string) : bool :=
  let segments q := rev (fold_left (path.push_segment false) (path.split q) []) in
  bool_decide (segments root `prefix_of` segments p).

(** Well-formed paths: a plain segment is a file or directory name proper,
    and [absolute segs] is the canonical absolute path through [segs]. *)
Definition no_sep (s : string) : bool := forallb (λ c, negb (path.is_sep c)) (path.chars s).

Definition plain (seg : string) : bool :=
  negb (bool_decide (seg = EmptyString)) && negb (bool_decide (seg = "."))
  && negb (bool_decide (seg = "..")) && no_sep seg.

Definition absolute (segs : list string) : string := "/" +:+ String.concat "/" segs.

(** The destination the handler computes for an entry, and its guard. *)
Definition destination {Key : Type} (this : BuildEnvSetupCeConanDirect Key)
    (downloadPath libId : string) (e : entry) : string :=
  getDestinationFilepath this downloadPath (name e) libId.

Definition passes_guard {Key : Type} (this : BuildEnvSetupCeConanDirect Key) (w : world)
    (downloadPath libId : string) (e : entry) : bool :=
  startsWith (path.resolve (cwd w) (path.dirname (destination this downloadPath libId e)))
             downloadPath.

(** The disk on which the handler opens the file of an entry: [fs] after
    [mkdirp], or [fs] itself in flatten mode. *)
Definition made_ready {Key : Type} (this : BuildEnvSetupCeConanDirect Key) (w : world)
    (downloadPath libId : string) (e : entry) (fs : filesystem) : filesystem :=
  if extractAllToRoot this then fs
  else fs_of (mkdirp w (path.dirname (destination this downloadPath libId e)) fs).

(** A trace in which every [CreateWriteStream f] comes right after
    [Mkdirp (path.dirname f)]. *)
Inductive mkdirp_first : list event → Prop :=
| mkdirp_first_nil : mkdirp_first []
| mkdirp_first_write (f : string) (t : list event) :
    mkdirp_first t →
    mkdirp_first (Mkdirp (path.dirname f) :: CreateWriteStream f :: t)
| mkdirp_first_other (e : event) (t : list event) :
    (∀ f, e ≠ CreateWriteStream f) →
    mkdirp_first t →
    mkdirp_first (e :: t).

(** * Properties *)

(** ** The package matcher *)

Lemma strict_eq_true val x : strict_eq val x = true ↔ x = Some val.
Proof. unfold strict_eq. by rewrite bool_decide_eq_true. Qed.

Lemma attribute_matches_iff (elem : candidate) (val key : string) :
  attribute_matches elem val key = true ↔
    (key = "compiler" ∧ settings elem !! "compiler" = Some "cshared")
    ∨ (key = "compiler.version" ∧ settings elem !! "compiler.version" = Some "cshared")
    ∨ (key = "compiler.libcxx" ∧ settings elem !! "compiler" = Some "cshared")
    ∨ settings elem !! key = Some val.
Proof.
  unfold attribute_matches.
  destruct (decide (key = "compiler")) as [-> | Hc].
  { simpl. destruct (strict_eq "cshared" _) eqn:Hs; simpl.
    - apply strict_eq_true in Hs. intuition.
    - rewrite strict_eq_true. split; [by intuition |].
      intros [[_ H] | [[? _] | [[? _] | H]]]; try done.
      apply strict_eq_true in H. congruence. }
  destruct (decide (key = "compiler.version")) as [-> | Hv].
  { simpl. destruct (strict_eq "cshared" _) eqn:Hs; simpl.
    - apply strict_eq_true in Hs. intuition.
    - rewrite strict_eq_true. split; [by intuition |].
      intros [[? _] | [[_ H] | [[? _] | H]]]; try done.
      apply strict_eq_true in H. congruence. }
  rewrite (bool_decide_eq_false_2 _ Hc), (bool_decide_eq_false_2 _ Hv). simpl.
  destruct (decide (key = "compiler.libcxx")) as [-> | Hl].
  { simpl. destruct (strict_eq "cshared" _) eqn:Hs; simpl.
    - apply strict_eq_true in Hs. intuition.
    - rewrite strict_eq_true. split; [by intuition |].
      intros [[? _] | [[? _] | [[_ H] | H]]]; try done.
      apply strict_eq_true in H. congruence. }
  rewrite (bool_decide_eq_false_2 _ Hl). simpl.
  rewrite strict_eq_true. intuition.
Qed.

Lemma candidate_matches_Forall (obj : list (string * string)) (elem : candidate) :
  candidate_matches obj elem = true ↔
  Forall (λ kv, attribute_matches elem kv.2 kv.1 = true) obj.
Proof.
  unfold candidate_matches, all_entries.
  rewrite forallb_forall, Forall_forall.
  split; intros H kv Hin; apply H; by apply list_elem_of_In.
Qed.

Lemma findKey_None {A} (obj : list (string * A)) (pred : A → bool) :
  findKey obj pred = None ↔ Forall (λ kv, pred kv.2 = false) obj.
Proof.
  induction obj as [|[k v] obj IH]; simpl.
  - split; [constructor | done].
  - destruct (pred v) eqn:Hv.
    + split; [done | inversion 1; simplify_eq/=; congruence].
    + rewrite IH. split; [by constructor | by inversion 1].
Qed.

Lemma findKey_Some {A} (obj : list (string * A)) (pred : A → bool) (k : string) :
  findKey obj pred = Some k ↔
  ∃ before v after,
    obj = before ++ (k, v) :: after
    ∧ pred v = true
    ∧ Forall (λ kv, pred kv.2 = false) before.
Proof.
  induction obj as [|[k' v'] obj IH]; simpl.
  - split; [done | intros (before & v & after & Heq & _)].
    by destruct before.
  - destruct (pred v') eqn:Hv.
    + split.
      * intros [= ->]. by exists [], v', obj.
      * intros (before & v & after & Heq & Hp & Hb).
        destruct before as [|[k0 v0] before]; simplify_eq/=; [done |].
        inversion Hb; simplify_eq/=; congruence.
    + rewrite IH. split.
      * intros (before & v & after & -> & Hp & Hb).
        exists ((k', v') :: before), v, after. repeat split; [done | by constructor].
      * intros (before & v & after & Heq & Hp & Hb).
        destruct before as [|[k0 v0] before]; simplify_eq/=; [congruence |].
        exists before, v, after. repeat split; [done | by inversion Hb].
Qed.

(** C2 (amended). An attribute of the descriptor matches a candidate exactly
    when one of these holds: the attribute is [compiler] and the candidate's
    [compiler] setting is ["cshared"]; the attribute is [compiler.version] and
    the candidate's own [compiler.version] setting is ["cshared"]; the
    attribute is [compiler.libcxx] and the candidate's [compiler] setting is
    ["cshared"]; or the candidate's same-named setting equals the descriptor's
    value. A single candidate is selected exactly when every attribute of the
    descriptor matches in this sense. *)
Theorem findMatchingHash_wildcard_rule (d : ConanBuildProperties) (hash : string)
    (c : candidate) :
  (∀ val key,
     attribute_matches c val key = true ↔
       (key = "compiler" ∧ settings c !! "compiler" = Some "cshared")
       ∨ (key = "compiler.version" ∧ settings c !! "compiler.version" = Some "cshared")
       ∨ (key = "compiler.libcxx" ∧ settings c !! "compiler" = Some "cshared")
       ∨ settings c !! key = Some val)
  ∧ (findMatchingHash d [(hash, c)] = Some hash ↔
     ∀ key val, (key, val) ∈ entries d → attribute_matches c val key = true).
Proof.
  split; [apply attribute_matches_iff |].
  unfold findMatchingHash. cbn [findKey].
  destruct (candidate_matches (entries d) c) eqn:Hm.
  - apply candidate_matches_Forall in Hm. rewrite Forall_forall in Hm.
    split; [intros _ key val Hin; apply (Hm (key, val) Hin) | done].
  - split; [done |]. intros H.
    assert (candidate_matches (entries d) c = true) as Hm'; [| congruence].
    apply candidate_matches_Forall, Forall_forall. intros [key val]. apply H.
Qed.

(** C2, as stated, fails: the candidate's [compiler] setting is ["cshared"] and
    every attribute other than the three compiler ones equals the descriptor's,
    yet [compiler.version] does not match and the candidate is not selected. *)
Lemma compiler_version_needs_its_own_sentinel :
  settings Fixture.cshared_v11 !! "compiler" = Some "cshared"
  ∧ Forall (λ kv, kv.1 ∈ ["compiler"; "compiler.version"; "compiler.libcxx"]
                  ∨ settings Fixture.cshared_v11 !! kv.1 = Some kv.2)
           (entries Fixture.gcc12)
  ∧ attribute_matches Fixture.cshared_v11 "12" "compiler.version" = false
  ∧ findMatchingHash Fixture.gcc12 [("abc123", Fixture.cshared_v11)] = None.
Proof.
  split; [by vm_compute |]. split; [| by vm_compute].
  repeat constructor; simpl; (by right; vm_compute) || (left; set_solver).
Qed.

(** C3 (amended). [findMatchingHash] is a function of the descriptor and the
    candidates. It yields [None] on the empty list and exactly when no
    candidate satisfies the rule for every attribute; it yields [hash] exactly
    when [hash] belongs to the first candidate that does. A candidate whose
    settings equal the descriptor attribute for attribute makes the result
    some hash, and its own hash when no candidate before it satisfies the
    rule. *)
Theorem findMatchingHash_first_match (d : ConanBuildProperties) (builds : possibleBuilds) :
  let satisfies (c : candidate) :=
    Forall (λ kv, attribute_matches c kv.2 kv.1 = true) (entries d) in
  findMatchingHash d [] = None
  ∧ (findMatchingHash d builds = None ↔ Forall (λ hc, ¬ satisfies hc.2) builds)
  ∧ (∀ hash,
       findMatchingHash d builds = Some hash ↔
       ∃ before c after,
         builds = before ++ (hash, c) :: after
         ∧ satisfies c
         ∧ Forall (λ hc, ¬ satisfies hc.2) before)
  ∧ (∀ before hash c after,
       builds = before ++ (hash, c) :: after →
       (∀ key val, (key, val) ∈ entries d → settings c !! key = Some val) →
       is_Some (findMatchingHash d builds)
       ∧ (Forall (λ hc, ¬ satisfies hc.2) before → findMatchingHash d builds = Some hash)).
Proof.
  intros satisfies.
  assert (∀ c, candidate_matches (entries d) c = false ↔ ¬ satisfies c) as Hneg.
  { intros c. unfold satisfies. rewrite <- candidate_matches_Forall.
    destruct (candidate_matches (entries d) c); split; congruence. }
  assert (∀ l : possibleBuilds,
            Forall (λ hc, candidate_matches (entries d) hc.2 = false) l
            ↔ Forall (λ hc, ¬ satisfies hc.2) l) as HnegF.
  { intros l. apply Forall_iff. intros [h c]. apply Hneg. }
  assert (∀ hash,
       findMatchingHash d builds = Some hash ↔
       ∃ before c after,
         builds = before ++ (hash, c) :: after
         ∧ satisfies c
         ∧ Forall (λ hc, ¬ satisfies hc.2) before) as Hsome.
  { intros hash. unfold findMatchingHash. rewrite findKey_Some.
    split; intros (before & c & after & -> & Hc & Hb); exists before, c, after;
      (split; [done |]); (split; [by apply candidate_matches_Forall | by apply HnegF]). }
  split; [done |]. split.
  { unfold findMatchingHash. by rewrite findKey_None, HnegF. }
  split; [exact Hsome |].
  intros before hash c after -> Heq.
  assert (satisfies c) as Hc.
  { apply Forall_forall. intros [key val] Hin. apply attribute_matches_iff.
    do 3 right. by apply Heq. }
  split.
  - destruct (findMatchingHash d (before ++ (hash, c) :: after)) eqn:Hf; [by eexists |].
    unfold findMatchingHash in Hf. apply findKey_None, HnegF in Hf.
    rewrite Forall_app, Forall_cons in Hf. by destruct Hf as (_ & Hn & _).
  - intros Hb. apply Hsome. by exists before, c, after.
Qed.

(** C3, as stated, fails: a candidate equal to the descriptor attribute for
    attribute sits behind another matching candidate, whose hash is returned
    instead. *)
Lemma exact_candidate_behind_another :
  Forall (λ kv, settings Fixture.exact !! kv.1 = Some kv.2) (entries Fixture.gcc11)
  ∧ ("bbb", Fixture.exact) ∈ Fixture.two_exact
  ∧ findMatchingHash Fixture.gcc11 Fixture.two_exact = Some "aaa"
  ∧ findMatchingHash Fixture.gcc11 Fixture.two_exact ≠ Some "bbb".
Proof.
  split; [repeat constructor; by vm_compute |].
  split; [unfold Fixture.two_exact; set_solver |].
  split; [by vm_compute |]. by vm_compute.
Qed.

(** ** Running effectful code *)

Lemma run_bind {A B} (m : io A) (k : A → io B) (fs : filesystem) :
  (m ≫= k) fs =
  (trace_of (m fs) ++ trace_of (k (result_of (m fs)) (fs_of (m fs))),
   fs_of (k (result_of (m fs)) (fs_of (m fs))),
   result_of (k (result_of (m fs)) (fs_of (m fs)))).
Proof.
  unfold mbind, io_bind, bind, trace_of, fs_of, result_of.
  destruct (m fs) as [[t1 fs1] a]. simpl. by destruct (k a fs1) as [[t2 fs2] b].
Qed.

Lemma run_ret {A} (a : A) (fs : filesystem) : (mret a : io A) fs = ([], fs, a).
Proof. done. Qed.

Lemma run_eta {A} (r : list event * filesystem * A) :
  r = (trace_of r, fs_of r, result_of r).
Proof. by destruct r as [[??]?]. Qed.

(** Settles a closed decidable proposition by evaluation. *)
Ltac by_evaluation :=
  lazymatch goal with
  | |- ?P => apply (bool_decide_unpack P); vm_compute; exact I
  end.

(** ** Node's path functions on well-formed paths *)

Lemma append_cons (x : ascii) (a b : string) : String x a +:+ b = String x (a +:+ b).
Proof. reflexivity. Qed.

Lemma append_assoc (a b c : string) : (a +:+ b) +:+ c = a +:+ b +:+ c.
Proof. induction a as [|x a IH]; [done |]. by rewrite !append_cons, IH. Qed.

Lemma chars_app (a b : string) : path.chars (a +:+ b) = path.chars a ++ path.chars b.
Proof.
  induction a as [|x a IH]; [done |].
  rewrite append_cons. unfold path.chars in *. cbn. by rewrite IH.
Qed.

Lemma of_chars_chars (a : string) : path.of_chars (path.chars a) = a.
Proof. apply string_of_list_ascii_of_string. Qed.

Lemma prefix_append (a b : string) : String.prefix a (a +:+ b) = true.
Proof.
  induction a as [|x a IH]; [by destruct b |].
  rewrite append_cons. cbn. by destruct (ascii_dec x x).
Qed.

Lemma no_sep_cons (c : ascii) (s : string) :
  no_sep (String c s) = negb (path.is_sep c) && no_sep s.
Proof. done. Qed.

Lemma split_no_sep (a b : string) :
  no_sep a = true → path.split (a +:+ String "/" b) = a :: path.split b.
Proof.
  induction a as [|x a IH]; intros Ha; [done |].
  rewrite no_sep_cons in Ha. apply andb_true_iff in Ha as [Hx Ha].
  rewrite append_cons. cbn. apply negb_true_iff in Hx. by rewrite Hx, (IH Ha).
Qed.

Lemma split_no_sep_end (a : string) : no_sep a = true → path.split a = [a].
Proof.
  induction a as [|x a IH]; intros Ha; [done |].
  rewrite no_sep_cons in Ha. apply andb_true_iff in Ha as [Hx Ha].
  cbn. apply negb_true_iff in Hx. by rewrite Hx, (IH Ha).
Qed.

Lemma plain_no_sep (seg : string) : plain seg = true → no_sep seg = true.
Proof. unfold plain. by intros [_ ?]%andb_true_iff. Qed.

Lemma plain_nonempty (seg : string) : plain seg = true → seg ≠ EmptyString.
Proof. by intros H ->. Qed.

Lemma concat_cons2 (x y : string) (l : list string) :
  String.concat "/" (x :: y :: l) = x +:+ String "/" (String.concat "/" (y :: l)).
Proof. done. Qed.

Lemma split_concat (segs : list string) :
  Forall (λ seg, plain seg = true) segs → segs ≠ [] →
  path.split (String.concat "/" segs) = segs.
Proof.
  induction segs as [|x [|y l] IH]; intros Hall Hne; [done | |].
  - cbn. apply split_no_sep_end, plain_no_sep. by inversion Hall.
  - rewrite concat_cons2. inversion Hall as [|?? Hx Hrest]; subst.
    rewrite split_no_sep by by apply plain_no_sep. f_equal. by apply IH.
Qed.

Lemma split_nonempty (s : string) : path.split s ≠ [].
Proof.
  destruct s as [|x s]; [done |]. cbn.
  destruct (path.is_sep x); [done |]. by destruct (path.split s).
Qed.

Lemma split_snoc_sep (s : string) :
  path.split (s +:+ "/") = path.split s ++ [EmptyString].
Proof.
  induction s as [|x s IH]; [done |].
  rewrite append_cons. cbn. destruct (path.is_sep x); [by rewrite IH |].
  rewrite IH. pose proof (split_nonempty s). by destruct (path.split s).
Qed.

Lemma push_plain (b : bool) (acc : list string) (seg : string) :
  plain seg = true → path.push_segment b acc seg = seg :: acc.
Proof.
  unfold plain, path.push_segment.
  intros [[[H1 H2]%andb_true_iff H3]%andb_true_iff _]%andb_true_iff.
  apply negb_true_iff in H1, H2, H3. by rewrite H1, H2, H3.
Qed.

Lemma fold_push_plain (b : bool) (segs acc : list string) :
  Forall (λ seg, plain seg = true) segs →
  fold_left (path.push_segment b) segs acc = rev segs ++ acc.
Proof.
  revert acc. induction segs as [|x l IH]; intros acc Hall; [done |].
  inversion Hall; subst. cbn [fold_left]. rewrite push_plain by done.
  rewrite IH by done. cbn [rev]. by rewrite <- app_assoc.
Qed.

Lemma concat_app (xs ys : list string) :
  xs ≠ [] → ys ≠ [] →
  String.concat "/" (xs ++ ys)
  = String.concat "/" xs +:+ String "/" (String.concat "/" ys).
Proof.
  induction xs as [|x [|x' xs] IH]; intros Hx Hy; [done | |].
  - destruct ys; [done |]. done.
  - rewrite <- !app_comm_cons, concat_cons2. rewrite app_comm_cons, IH by done.
    rewrite concat_cons2. by rewrite append_assoc.
Qed.

Lemma concat_plain_nonempty (segs : list string) :
  Forall (λ seg, plain seg = true) segs → segs ≠ [] →
  String.concat "/" segs ≠ EmptyString.
Proof.
  destruct segs as [|x [|y l]]; intros Hall Hne; [done | |].
  - cbn. apply plain_nonempty. by inversion Hall.
  - rewrite concat_cons2. inversion Hall as [|?? Hx _]; subst.
    apply plain_nonempty in Hx. by destruct x.
Qed.

Lemma normalizeString_absolute (segs : list string) (b : bool) :
  Forall (λ seg, plain seg = true) segs → segs ≠ [] →
  path.normalizeString (absolute segs) b = String.concat "/" segs.
Proof.
  intros Hall Hne. unfold path.normalizeString, absolute.
  change ("/" +:+ String.concat "/" segs) with (String "/" (String.concat "/" segs)).
  cbn [path.split]. change (path.is_sep "/") with true. cbn iota.
  rewrite split_concat by done. cbn [fold_left].
  change (path.push_segment b [] EmptyString) with (@nil string).
  rewrite fold_push_plain by done. by rewrite app_nil_r, rev_involutive.
Qed.

Lemma normalizeString_absolute_sep (segs : list string) (b : bool) :
  Forall (λ seg, plain seg = true) segs → segs ≠ [] →
  path.normalizeString (absolute segs +:+ "/") b = String.concat "/" segs.
Proof.
  intros Hall Hne. unfold path.normalizeString.
  rewrite split_snoc_sep, fold_left_app. cbn [fold_left].
  fold (path.normalizeString (absolute segs) b).
  pose proof (normalizeString_absolute segs b Hall Hne) as Hn.
  unfold path.normalizeString in Hn |- *.
  set (st := fold_left (path.push_segment b) (path.split (absolute segs)) []) in *.
  change (path.push_segment b st EmptyString) with st. done.
Qed.

Lemma resolve_absolute (cwd : string) (segs : list string) :
  Forall (λ seg, plain seg = true) segs → segs ≠ [] →
  path.resolve cwd (absolute segs) = absolute segs.
Proof.
  intros Hall Hne. unfold path.resolve.
  change (bool_decide (absolute segs = EmptyString)) with false.
  change (path.isAbsolute (absolute segs)) with true. cbn iota.
  by rewrite normalizeString_absolute_sep.
Qed.

Lemma ends_with_sep_cons (c : ascii) (s : string) :
  s ≠ EmptyString → path.ends_with_sep (String c s) = path.ends_with_sep s.
Proof. by destruct s. Qed.

Lemma ends_with_sep_app (a b : string) :
  b ≠ EmptyString → path.ends_with_sep (a +:+ b) = path.ends_with_sep b.
Proof.
  intros Hb. induction a as [|x a IH]; [done |].
  rewrite append_cons, ends_with_sep_cons; [done |]. by destruct a, b.
Qed.

Lemma ends_with_sep_no_sep (s : string) :
  no_sep s = true → path.ends_with_sep s = false.
Proof.
  induction s as [|x s IH]; [done |]. rewrite no_sep_cons.
  intros [Hx Hs]%andb_true_iff. destruct s as [|y s].
  - cbn. by apply negb_true_iff.
  - rewrite ends_with_sep_cons by done. by apply IH.
Qed.

Lemma ends_with_sep_concat (segs : list string) :
  Forall (λ seg, plain seg = true) segs → segs ≠ [] →
  path.ends_with_sep (String.concat "/" segs) = false.
Proof.
  induction segs as [|x [|y l] IH]; intros Hall Hne; [done | |].
  - cbn. apply ends_with_sep_no_sep, plain_no_sep. by inversion Hall.
  - inversion Hall as [|?? Hx Hrest]; subst. rewrite concat_cons2.
    change (String "/" ?s) with ("/" +:+ s).
    rewrite <- append_assoc, ends_with_sep_app by by apply concat_plain_nonempty.
    by apply IH.
Qed.

Lemma normalize_absolute (segs : list string) :
  Forall (λ seg, plain seg = true) segs → segs ≠ [] →
  path.normalize (absolute segs) = absolute segs.
Proof.
  intros Hall Hne. unfold path.normalize.
  change (bool_decide (absolute segs = EmptyString)) with false. cbn iota.
  rewrite normalizeString_absolute by done.
  rewrite (bool_decide_eq_false_2 _ (concat_plain_nonempty segs Hall Hne)).
  change (path.isAbsolute (absolute segs)) with true. cbn iota.
  assert (path.ends_with_sep (absolute segs) = false) as ->; [| done].
  change (absolute segs) with (String "/" (String.concat "/" segs)).
  rewrite ends_with_sep_cons by by apply concat_plain_nonempty.
  by apply ends_with_sep_concat.
Qed.

Lemma absolute_app (xs ys : list string) :
  xs ≠ [] → ys ≠ [] →
  absolute (xs ++ ys) = absolute xs +:+ String "/" (String.concat "/" ys).
Proof.
  intros Hx Hy. unfold absolute. by rewrite concat_app, append_assoc.
Qed.

Lemma join_absolute (rs ns : list string) (libId : string) :
  Forall (λ seg, plain seg = true) (rs ++ libId :: ns) → rs ≠ [] → ns ≠ [] →
  path.join [absolute rs; libId; String.concat "/" ns] = absolute (rs ++ libId :: ns).
Proof.
  intros Hall Hr Hn.
  apply Forall_app in Hall as Hparts. destruct Hparts as [Hrs Hrest].
  inversion Hrest as [|?? Hlib Hns]; subst.
  unfold path.join. rewrite !filter_cons, filter_nil.
  pose proof (plain_nonempty _ Hlib). pose proof (concat_plain_nonempty _ Hns Hn).
  repeat (case_decide; [| done]).
  rewrite <- (normalize_absolute (rs ++ libId :: ns)); [| done | by destruct rs].
  f_equal. rewrite absolute_app by done. by destruct ns.
Qed.

Lemma drop_while_head (f : ascii → bool) (c : ascii) (l : list ascii) :
  f c = false → path.drop_while f (c :: l) = c :: l.
Proof. cbn. by intros ->. Qed.

Lemma drop_while_app (f : ascii → bool) (l1 : list ascii) (c : ascii) (l2 : list ascii) :
  Forall (λ x, f x = true) l1 → f c = false →
  path.drop_while f (l1 ++ c :: l2) = c :: l2.
Proof.
  intros Hl Hc. induction Hl as [|x l1 Hx _ IH]; cbn; [by rewrite Hc | by rewrite Hx].
Qed.

Lemma no_sep_Forall (s : string) :
  no_sep s = true → Forall (λ c, negb (path.is_sep c) = true) (path.chars s).
Proof.
  unfold no_sep. rewrite forallb_forall, Forall_forall.
  intros H c Hin. apply H. by apply list_elem_of_In.
Qed.

Lemma chars_nonempty (s : string) : s ≠ EmptyString → path.chars s ≠ [].
Proof. by destruct s. Qed.

Lemma rev_nonempty {A} (l : list A) : l ≠ [] → rev l ≠ [].
Proof.
  intros Hl Hr. apply Hl. rewrite <- (rev_involutive l). by rewrite Hr.
Qed.

Lemma dirname_absolute (xs : list string) (last : string) :
  Forall (λ seg, plain seg = true) (xs ++ [last]) → xs ≠ [] →
  path.dirname (absolute (xs ++ [last])) = absolute xs.
Proof.
  intros [Hxs Hlast]%Forall_app Hne.
  rewrite Forall_singleton in Hlast.
  rewrite absolute_app by done. cbn [String.concat].
  unfold absolute at 1. change ("/" +:+ ?s) with (String "/" s).
  rewrite append_cons. unfold path.dirname.
  change (path.is_sep "/") with true.
  rewrite chars_app. change (path.chars (String "/" last)) with ("/"%char :: path.chars last).
  rewrite rev_app_distr. cbn [rev]. rewrite <- app_assoc. cbn [app].
  pose proof (no_sep_Forall _ (plain_no_sep _ Hlast)) as Hns.
  pose proof (chars_nonempty _ (plain_nonempty _ Hlast)) as Hc.
  assert (Forall (λ c, negb (path.is_sep c) = true) (rev (path.chars last))) as Hrev.
  { by apply List.Forall_rev. }
  assert (path.drop_while path.is_sep
            (rev (path.chars last) ++ "/"%char :: rev (path.chars (String.concat "/" xs)))
          = rev (path.chars last) ++ "/"%char :: rev (path.chars (String.concat "/" xs)))
    as ->.
  { destruct (rev (path.chars last)) as [|c t] eqn:Hr.
    - by apply rev_nonempty in Hc.
    - cbn [app]. apply drop_while_head. inversion Hrev; subst. by apply negb_true_iff. }
  rewrite (drop_while_app _ _ _ _ Hrev) by done.
  pose proof (chars_nonempty _ (concat_plain_nonempty _ Hxs Hne)) as Hcx.
  pose proof (rev_nonempty _ Hcx) as Hrx.
  rewrite (bool_decide_eq_false_2 _ Hrx). cbn [andb].
  by rewrite rev_involutive, of_chars_chars.
Qed.

(** ** The ['entry'] handler, case by case *)

Section Entry.
Context {Key : Type} (this : BuildEnvSetupCeConanDirect Key) (w : world).
Context (libId version downloadPath : string) (e : entry) (fs : filesystem).

Lemma on_entry_skipped :
  passes_guard this w downloadPath libId e = false →
  on_entry this w libId version downloadPath e fs =
  ([Log LError ("Library " +:+ libId +:+ "/" +:+ version
                +:+ " is using a zip-slip, skipping file")], fs, Next).
Proof.
  unfold passes_guard, destination, on_entry. intros ->. reflexivity.
Qed.

Lemma on_entry_mkdirp_throws (error : string) :
  passes_guard this w downloadPath libId e = true →
  extractAllToRoot this = false →
  mkdirp_error w fs (path.dirname (destination this downloadPath libId e)) = Some error →
  on_entry this w libId version downloadPath e fs =
  ([Mkdirp (path.dirname (destination this downloadPath libId e));
    Log LError ("Error in entry handling: " +:+ error)],
   fs, Reject error).
Proof.
  unfold passes_guard, destination, on_entry. intros -> -> Hb.
  cbn [negb]. unfold mbind, io_bind, bind, mkdirp. rewrite Hb. reflexivity.
Qed.

Lemma on_entry_empty :
  passes_guard this w downloadPath libId e = true →
  extractAllToRoot this = true
  ∨ mkdirp_error w fs (path.dirname (destination this downloadPath libId e)) = None →
  open_error w (made_ready this w downloadPath libId e fs)
             (destination this downloadPath libId e) = None →
  size e = 0%N →
  on_entry this w libId version downloadPath e fs =
  ((if extractAllToRoot this then []
    else [Mkdirp (path.dirname (destination this downloadPath libId e))])
   ++ [CreateWriteStream (destination this downloadPath libId e)],
   <[path.resolve (cwd w) (destination this downloadPath libId e) := EmptyString]>
     (made_ready this w downloadPath libId e fs),
   Next).
Proof.
  unfold passes_guard, made_ready, destination, on_entry. intros -> Hb Ho ->.
  cbn [negb]. unfold mbind, io_bind, bind, mkdirp, createWriteStream in *.
  destruct (extractAllToRoot this); cbn [negb].
  - rewrite run_ret. cbv beta iota zeta. by rewrite Ho.
  - destruct Hb as [? | Hb]; [done |]. rewrite Hb in *.
    cbn [fs_of fst snd] in Ho. cbv beta iota zeta. by rewrite Ho.
Qed.

(** The open fails: no file is made, nothing listens to the stream's
    ['error'], and the handler has called [next()] all the same. *)
Lemma on_entry_empty_broken (error : string) :
  passes_guard this w downloadPath libId e = true →
  extractAllToRoot this = true
  ∨ mkdirp_error w fs (path.dirname (destination this downloadPath libId e)) = None →
  open_error w (made_ready this w downloadPath libId e fs)
             (destination this downloadPath libId e) = Some error →
  size e = 0%N →
  on_entry this w libId version downloadPath e fs =
  ((if extractAllToRoot this then []
    else [Mkdirp (path.dirname (destination this downloadPath libId e))])
   ++ [CreateWriteStream (destination this downloadPath libId e); Unhandled error],
   made_ready this w downloadPath libId e fs,
   Next).
Proof.
  unfold passes_guard, made_ready, destination, on_entry. intros -> Hb Ho ->.
  cbn [negb]. unfold mbind, io_bind, bind, mkdirp, createWriteStream in *.
  destruct (extractAllToRoot this); cbn [negb].
  - rewrite run_ret. cbv beta iota zeta. by rewrite Ho.
  - destruct Hb as [? | Hb]; [done |]. rewrite Hb in *.
    cbn [fs_of fst snd] in Ho. cbv beta iota zeta. by rewrite Ho.
Qed.

Lemma on_entry_piped :
  passes_guard this w downloadPath libId e = true →
  extractAllToRoot this = true
  ∨ mkdirp_error w fs (path.dirname (destination this downloadPath libId e)) = None →
  open_error w (made_ready this w downloadPath libId e fs)
             (destination this downloadPath libId e) = None →
  size e ≠ 0%N →
  on_entry this w libId version downloadPath e fs =
  ((if extractAllToRoot this then []
    else [Mkdirp (path.dirname (destination this downloadPath libId e))])
   ++ [CreateWriteStream (destination this downloadPath libId e);
       Pipe (destination this downloadPath libId e) (data e)]
   ++ match fault e with
      | Some error => [Log LError ("Error in stream handling: " +:+ error)]
      | None => []
      end,
   <[path.resolve (cwd w) (destination this downloadPath libId e) := data e]>
     (<[path.resolve (cwd w) (destination this downloadPath libId e) := EmptyString]>
        (made_ready this w downloadPath libId e fs)),
   match fault e with Some error => Reject error | None => Next end).
Proof.
  unfold passes_guard, made_ready, destination, on_entry. intros -> Hb Ho Hs.
  cbn [negb]. unfold mbind, io_bind, bind, mkdirp, createWriteStream, pipe in *.
  rewrite (bool_decide_eq_false_2 _ Hs).
  destruct (extractAllToRoot this); cbn [negb].
  - rewrite run_ret. cbv beta iota zeta. rewrite Ho. by destruct (fault e).
  - destruct Hb as [? | Hb]; [done |]. rewrite Hb in *.
    cbn [fs_of fst snd] in Ho. cbv beta iota zeta. rewrite Ho. by destruct (fault e).
Qed.

Lemma on_entry_piped_broken (error : string) :
  passes_guard this w downloadPath libId e = true →
  extractAllToRoot this = true
  ∨ mkdirp_error w fs (path.dirname (destination this downloadPath libId e)) = None →
  open_error w (made_ready this w downloadPath libId e fs)
             (destination this downloadPath libId e) = Some error →
  size e ≠ 0%N →
  on_entry this w libId version downloadPath e fs =
  ((if extractAllToRoot this then []
    else [Mkdirp (path.dirname (destination this downloadPath libId e))])
   ++ [CreateWriteStream (destination this downloadPath libId e); Unhandled error]
   ++ match fault e with
      | Some error => [Log LError ("Error in stream handling: " +:+ error)]
      | None => []
      end,
   made_ready this w downloadPath libId e fs,
   match fault e with Some error => Reject error | None => Next end).
Proof.
  unfold passes_guard, made_ready, destination, on_entry. intros -> Hb Ho Hs.
  cbn [negb]. unfold mbind, io_bind, bind, mkdirp, createWriteStream, pipe in *.
  rewrite (bool_decide_eq_false_2 _ Hs).
  destruct (extractAllToRoot this); cbn [negb].
  - rewrite run_ret. cbv beta iota zeta. rewrite Ho. by destruct (fault e).
  - destruct Hb as [? | Hb]; [done |]. rewrite Hb in *.
    cbn [fs_of fst snd] in Ho. cbv beta iota zeta. rewrite Ho. by destruct (fault e).
Qed.

(** The shape of the handler's trace: it opens at most one file, the
    destination of an entry that has passed the guard, as the first thing
    after [mkdirp]. *)
Lemma on_entry_trace :
  ∃ tail : list event,
    (∀ f, CreateWriteStream f ∉ tail)
    ∧ (trace_of (on_entry this w libId version downloadPath e fs)
       = (if extractAllToRoot this then []
          else [Mkdirp (path.dirname (destination this downloadPath libId e))]) ++ tail
       ∨ (passes_guard this w downloadPath libId e = true
          ∧ trace_of (on_entry this w libId version downloadPath e fs)
            = (if extractAllToRoot this then []
               else [Mkdirp (path.dirname (destination this downloadPath libId e))])
              ++ CreateWriteStream (destination this downloadPath libId e) :: tail)
       ∨ trace_of (on_entry this w libId version downloadPath e fs) = tail).
Proof.
  assert (∀ t : list event,
            Forall (λ ev, match ev with CreateWriteStream _ => False | _ => True end) t →
            ∀ f, CreateWriteStream f ∉ t) as Hfree.
  { intros t Ht f Hin. rewrite Forall_forall in Ht. exact (Ht _ Hin). }
  destruct (passes_guard this w downloadPath libId e) eqn:Hpass.
  2: { rewrite on_entry_skipped by done. eexists. split; [| right; right; reflexivity].
       apply Hfree. by repeat constructor. }
  destruct (extractAllToRoot this) eqn:Hflat.
  - destruct (open_error w (made_ready this w downloadPath libId e fs)
                (destination this downloadPath libId e)) as [error |] eqn:Ho;
      destruct (decide (size e = 0%N)) as [Hs | Hs].
    + rewrite (on_entry_empty_broken error) by auto. rewrite Hflat.
      eexists. split; [| right; left; split; [done | reflexivity]].
      apply Hfree. by repeat constructor.
    + rewrite (on_entry_piped_broken error) by auto. rewrite Hflat.
      eexists. split; [| right; left; split; [done | reflexivity]].
      apply Hfree. destruct (fault e); by repeat constructor.
    + rewrite on_entry_empty by auto. rewrite Hflat.
      eexists. split; [| right; left; split; [done | reflexivity]].
      apply Hfree. by repeat constructor.
    + rewrite on_entry_piped by auto. rewrite Hflat.
      eexists. split; [| right; left; split; [done | reflexivity]].
      apply Hfree. destruct (fault e); by repeat constructor.
  - destruct (mkdirp_error w fs (path.dirname (destination this downloadPath libId e)))
      as [error |] eqn:Hmk.
    { rewrite (on_entry_mkdirp_throws error) by done.
      eexists. split; [| left; reflexivity]. apply Hfree. by repeat constructor. }
    destruct (open_error w (made_ready this w downloadPath libId e fs)
                (destination this downloadPath libId e)) as [error |] eqn:Ho;
      destruct (decide (size e = 0%N)) as [Hs | Hs].
    + rewrite (on_entry_empty_broken error) by auto. rewrite Hflat.
      eexists. split; [| right; left; split; [done | reflexivity]].
      apply Hfree. by repeat constructor.
    + rewrite (on_entry_piped_broken error) by auto. rewrite Hflat.
      eexists. split; [| right; left; split; [done | reflexivity]].
      apply Hfree. destruct (fault e); by repeat constructor.
    + rewrite on_entry_empty by auto. rewrite Hflat.
      eexists. split; [| right; left; split; [done | reflexivity]].
      apply Hfree. by repeat constructor.
    + rewrite on_entry_piped by auto. rewrite Hflat.
      eexists. split; [| right; left; split; [done | reflexivity]].
      apply Hfree. destruct (fault e); by repeat constructor.
Qed.

(** Whatever the handler writes has passed the guard. *)
Lemma on_entry_writes_guarded (f : string) :
  CreateWriteStream f ∈ trace_of (on_entry this w libId version downloadPath e fs) →
  f = destination this downloadPath libId e
  ∧ passes_guard this w downloadPath libId e = true.
Proof.
  destruct on_entry_trace as (tail & Hfree & [-> | [[Hpass ->] | ->]]).
  - intros [Hin | Hin]%elem_of_app; [| by apply Hfree in Hin].
    destruct (extractAllToRoot this); [by apply elem_of_nil in Hin |].
    by apply list_elem_of_singleton in Hin.
  - intros [Hin | [Heq | Hin]%elem_of_cons]%elem_of_app.
    + destruct (extractAllToRoot this); [by apply elem_of_nil in Hin |].
      by apply list_elem_of_singleton in Hin.
    + by simplify_eq.
    + by apply Hfree in Hin.
  - intros Hin. by apply Hfree in Hin.
Qed.

End Entry.

(** A well-formed entry under a canonical root goes to [root/libId/entry]
    and passes the guard. *)
Lemma well_formed_destination {Key : Type} (this : BuildEnvSetupCeConanDirect Key)
    (rs ns : list string) (libId : string) (e : entry) :
  extractAllToRoot this = false →
  Forall (λ seg, plain seg = true) (rs ++ libId :: ns) → rs ≠ [] → ns ≠ [] →
  name e = String.concat "/" ns →
  destination this (absolute rs) libId e = absolute (rs ++ libId :: ns).
Proof.
  intros Hflat Hall Hr Hn Hname.
  unfold destination, getDestinationFilepath. rewrite Hflat, Hname.
  by apply join_absolute.
Qed.

Lemma well_formed_passes_guard {Key : Type} (this : BuildEnvSetupCeConanDirect Key)
    (w : world) (rs ns : list string) (libId : string) (e : entry) :
  extractAllToRoot this = false →
  Forall (λ seg, plain seg = true) (rs ++ libId :: ns) → rs ≠ [] → ns ≠ [] →
  name e = String.concat "/" ns →
  passes_guard this w (absolute rs) libId e = true.
Proof.
  intros Hflat Hall Hr Hn Hname. unfold passes_guard.
  rewrite (well_formed_destination this rs ns libId e) by done.
  destruct ns as [|n ns _] using rev_ind; [done |].
  assert (rs ++ libId :: ns ++ [n] = (rs ++ libId :: ns) ++ [n]) as Hsplit.
  { by rewrite <- app_assoc. }
  rewrite Hsplit in Hall |- *.
  rewrite dirname_absolute; [| done | by destruct rs].
  apply Forall_app in Hall as [Hdir _].
  rewrite resolve_absolute; [| done | by destruct rs].
  rewrite absolute_app by done. apply prefix_append.
Qed.

(** ** The disk *)

Lemma disk_lookup_empty (p : string) : (∅ : filesystem) !! p = None.
Proof. apply (lookup_empty (M := gmap string)). Qed.

Lemma disk_lookup_insert_eq (fs : filesystem) (p bytes : string) :
  <[p := bytes]> fs !! p = Some bytes.
Proof. apply (lookup_insert_eq (M := gmap string)). Qed.

Lemma disk_lookup_insert_ne (fs : filesystem) (p q bytes : string) :
  p ≠ q → <[p := bytes]> fs !! q = fs !! q.
Proof. apply (lookup_insert_ne (M := gmap string)). Qed.

Lemma disk_insert_insert_eq (fs : filesystem) (p bytes bytes' : string) :
  <[p := bytes']> (<[p := bytes]> fs) = <[p := bytes']> fs.
Proof.
  unfold insert, filesystem_insert. cbn [files directories]. f_equal.
  - apply (insert_insert_eq (M := gmap string)).
  - set_solver.
Qed.

Lemma disk_eq (fs1 fs2 : filesystem) :
  files fs1 = files fs2 → directories fs1 = directories fs2 → fs1 = fs2.
Proof. destruct fs1, fs2. cbn. by intros -> ->. Qed.

(** [mkdirp] makes directories and touches no regular file. *)
Lemma mkdirp_files (w : world) (d : string) (fs : filesystem) :
  files (fs_of (mkdirp w d fs)) = files fs.
Proof. unfold mkdirp. by destruct (mkdirp_error w fs d). Qed.

Lemma made_ready_files {Key : Type} (this : BuildEnvSetupCeConanDirect Key) (w : world)
    (downloadPath libId : string) (e : entry) (fs : filesystem) :
  files (made_ready this w downloadPath libId e fs) = files fs.
Proof. unfold made_ready. destruct (extractAllToRoot this); [done | apply mkdirp_files]. Qed.

(** ** [mkdirp] on well-formed paths *)

Lemma mkdirp_error_fresh (w : world) (d : string) : mkdirp_error w ∅ d = None.
Proof.
  unfold mkdirp_error, is_file. rewrite disk_lookup_empty.
  rewrite bool_decide_eq_false_2 by (intros [? ?]; done).
  induction (ancestry w d) as [|k l IH]; [done |]. cbn [existsb].
  rewrite disk_lookup_empty, bool_decide_eq_false_2 by (intros [? ?]; done).
  exact IH.
Qed.

Lemma absolute_inj (xs ys : list string) :
  Forall (λ seg, plain seg = true) xs → Forall (λ seg, plain seg = true) ys →
  xs ≠ [] → ys ≠ [] →
  absolute xs = absolute ys → xs = ys.
Proof.
  intros Hx Hy Hxn Hyn Heq. apply (String.app_inj "/") in Heq.
  rewrite <- (split_concat xs), <- (split_concat ys) by done. by rewrite Heq.
Qed.

Lemma ancestry_absolute (w : world) (segs : list string) :
  Forall (λ seg, plain seg = true) segs → segs ≠ [] →
  ancestry w (absolute segs)
  = map (λ k, absolute (take k segs)) (seq 1 (length segs)).
Proof.
  intros Hall Hne. unfold ancestry. rewrite resolve_absolute by done.
  assert (rev (fold_left (path.push_segment false) (path.split (absolute segs)) []) = segs)
    as ->; [| done].
  change (absolute segs) with (String "/" (String.concat "/" segs)).
  cbn [path.split]. change (path.is_sep "/") with true. cbn iota.
  rewrite split_concat by done. cbn [fold_left].
  change (path.push_segment false [] EmptyString) with (@nil string).
  rewrite fold_push_plain by done. by rewrite app_nil_r, rev_involutive.
Qed.

Lemma mkdirp_error_clear (w : world) (fs : filesystem) (segs : list string) :
  Forall (λ seg, plain seg = true) segs → segs ≠ [] →
  (∀ k, 1 ≤ k ≤ length segs → fs !! absolute (take k segs) = None) →
  mkdirp_error w fs (absolute segs) = None.
Proof.
  intros Hall Hne Hclear. unfold mkdirp_error, is_file.
  rewrite resolve_absolute by done.
  assert (0 < length segs) as Hlen by (destruct segs; [done | cbn; lia]).
  rewrite bool_decide_eq_false_2.
  2: { rewrite <- (firstn_all segs), Hclear by lia. by intros [? ?]. }
  rewrite ancestry_absolute by done.
  assert (∀ ks, Forall (λ k, 1 ≤ k ≤ length segs) ks →
                existsb (λ p, bool_decide (is_Some (fs !! p)))
                        (map (λ k, absolute (take k segs)) ks) = false) as Hnone.
  { induction 1 as [|k ks Hk _ IH]; [done |]. cbn [map existsb].
    rewrite Hclear, IH by done. rewrite bool_decide_eq_false_2; [done | by intros [? ?]]. }
  rewrite Hnone; [done |].
  apply Forall_forall. intros k Hin%list_elem_of_In%in_seq. lia.
Qed.

Lemma mkdirp_directories (w : world) (fs : filesystem) (d : string) :
  mkdirp_error w fs d = None →
  fs_of (mkdirp w d fs) = Disk (files fs) (directories fs ∪ list_to_set (ancestry w d)).
Proof. unfold mkdirp. by intros ->. Qed.

(** When [mkdirp] does not throw, no regular file sits at the directory or
    above it. *)
Lemma mkdirp_error_None (w : world) (fs : filesystem) (d p : string) :
  mkdirp_error w fs d = None → p ∈ ancestry w d → fs !! p = None.
Proof.
  unfold mkdirp_error. destruct (is_file fs (path.resolve (cwd w) d)); [done |].
  destruct (existsb (is_file fs) (ancestry w d)) eqn:Hex; [done |]. intros _ Hin.
  destruct (fs !! p) as [bytes |] eqn:Hp; [| done].
  assert (existsb (is_file fs) (ancestry w d) = true) as Htrue; [| congruence].
  apply existsb_exists. exists p. split; [by apply list_elem_of_In |].
  unfold is_file. rewrite Hp. by apply bool_decide_eq_true.
Qed.

(** ** Opening a file with a well-formed name *)

Lemma above_absolute (segs : list string) :
  Forall (λ seg, plain seg = true) segs → segs ≠ [] →
  above (absolute segs) = map (λ k, absolute (take k segs)) (seq 1 (length segs - 1)).
Proof.
  intros Hall Hne. unfold above.
  assert (rev (fold_left (path.push_segment false) (path.split (absolute segs)) []) = segs)
    as ->; [| done].
  change (absolute segs) with (String "/" (String.concat "/" segs)).
  cbn [path.split]. change (path.is_sep "/") with true. cbn iota.
  rewrite split_concat by done. cbn [fold_left].
  change (path.push_segment false [] EmptyString) with (@nil string).
  rewrite fold_push_plain by done. by rewrite app_nil_r, rev_involutive.
Qed.

(** The directories above a file are its directory and those above it. *)
Lemma above_ancestry (w : world) (xs : list string) (last : string) :
  Forall (λ seg, plain seg = true) (xs ++ [last]) → xs ≠ [] →
  above (absolute (xs ++ [last])) = ancestry w (absolute xs).
Proof.
  intros Hall Hne. apply Forall_app in Hall as Hparts. destruct Hparts as [Hxs _].
  rewrite above_absolute, ancestry_absolute; [| done | done | done | by destruct xs].
  rewrite length_app. cbn [length]. replace (length xs + 1 - 1) with (length xs) by lia.
  apply map_ext_in. intros k Hk%in_seq. f_equal. apply take_app_le. lia.
Qed.

Lemma ancestry_shorter (w : world) (xs : list string) (last p : string) :
  Forall (λ seg, plain seg = true) (xs ++ [last]) → xs ≠ [] →
  p ∈ ancestry w (absolute xs) → p ≠ absolute (xs ++ [last]).
Proof.
  intros Hall Hne Hin Heq. apply Forall_app in Hall as Hparts. destruct Hparts as [Hxs _].
  rewrite ancestry_absolute in Hin by done.
  apply list_elem_of_In, in_map_iff in Hin as (k & <- & Hk%in_seq).
  apply absolute_inj in Heq; [| by apply Forall_take | done | | by destruct xs].
  - apply (f_equal length) in Heq. rewrite length_take, length_app in Heq. cbn in Heq. lia.
  - destruct k; [lia |]. by destruct xs.
Qed.

Lemma absolute_not_root (segs : list string) :
  Forall (λ seg, plain seg = true) segs → segs ≠ [] → absolute segs ≠ "/".
Proof.
  intros Hall Hne Heq. apply (concat_plain_nonempty segs Hall Hne).
  by apply (String.app_inj "/" _ EmptyString) in Heq.
Qed.

Lemma ends_with_sep_absolute (segs : list string) :
  Forall (λ seg, plain seg = true) segs → segs ≠ [] →
  path.ends_with_sep (absolute segs) = false.
Proof.
  intros Hall Hne. change (absolute segs) with (String "/" (String.concat "/" segs)).
  rewrite ends_with_sep_cons by by apply concat_plain_nonempty.
  by apply ends_with_sep_concat.
Qed.

(** A well-formed file name opens when the directories above it are there,
    none of them a regular file, and it does not name a directory. *)
Lemma open_error_clear (w : world) (fs : filesystem) (xs : list string) (last : string) :
  Forall (λ seg, plain seg = true) (xs ++ [last]) → xs ≠ [] →
  (∀ d, d ∈ ancestry w (absolute xs) → fs !! d = None ∧ d ∈ directories fs) →
  absolute (xs ++ [last]) ∉ directories fs →
  open_error w fs (absolute (xs ++ [last])) = None.
Proof.
  intros Hall Hne Hdirs Hfile. unfold open_error.
  rewrite resolve_absolute; [| done | by destruct xs].
  rewrite (above_ancestry w) by done.
  rewrite ends_with_sep_absolute; [| done | by destruct xs].
  assert (existsb (is_file fs) (ancestry w (absolute xs)) = false) as ->.
  { apply not_true_iff_false. intros (d & Hin%list_elem_of_In & Hd)%existsb_exists.
    unfold is_file in Hd. apply bool_decide_eq_true in Hd as [bytes Hd].
    destruct (Hdirs d Hin) as [Hnone _]. congruence. }
  assert (forallb (is_directory fs) (ancestry w (absolute xs)) = true) as ->.
  { apply forallb_forall. intros d Hin%list_elem_of_In. unfold is_directory.
    apply orb_true_iff. right. apply bool_decide_eq_true. by apply Hdirs. }
  cbn [orb andb negb]. unfold is_directory.
  rewrite bool_decide_eq_false_2.
  2: { apply absolute_not_root; [done | by destruct xs]. }
  by rewrite bool_decide_eq_false_2.
Qed.

(** After [mkdirp] of its directory, a well-formed file name opens unless it
    names a directory. *)
Lemma open_error_after_mkdirp (w : world) (fs : filesystem) (xs : list string)
    (last : string) :
  Forall (λ seg, plain seg = true) (xs ++ [last]) → xs ≠ [] →
  mkdirp_error w fs (absolute xs) = None →
  absolute (xs ++ [last]) ∉ directories fs →
  open_error w (fs_of (mkdirp w (absolute xs) fs)) (absolute (xs ++ [last])) = None.
Proof.
  intros Hall Hne Hmk Hfile. rewrite mkdirp_directories by done.
  apply open_error_clear; [done | done | |].
  - intros d Hin. split.
    + by apply (mkdirp_error_None w fs (absolute xs)).
    + cbn [directories]. apply elem_of_union. right. by apply elem_of_list_to_set.
  - cbn [directories]. intros [Hin | Hin%elem_of_list_to_set]%elem_of_union; [done |].
    by eapply ancestry_shorter.
Qed.

Lemma extract_cons {Key} (this : BuildEnvSetupCeConanDirect Key) (w : world)
    (libId version downloadPath : string) (e : entry) (rest : list entry)
    (fs : filesystem) :
  extract this w libId version downloadPath (e :: rest) fs =
  let r := on_entry this w libId version downloadPath e fs in
  match result_of r with
  | Next =>
      let r' := extract this w libId version downloadPath rest (fs_of r) in
      (trace_of r ++ trace_of r', fs_of r', result_of r')
  | Reject error => (trace_of r, fs_of r, Some error)
  end.
Proof.
  cbn [extract]. rewrite run_bind. cbn zeta.
  destruct (result_of (on_entry _ _ _ _ _ _ _)).
  - reflexivity.
  - rewrite run_ret. cbn [trace_of fs_of result_of fst snd]. by rewrite app_nil_r.
Qed.

(** ** Traces in which [mkdirp] precedes every write *)

Lemma mkdirp_first_app (t1 t2 : list event) :
  mkdirp_first t1 → mkdirp_first t2 → mkdirp_first (t1 ++ t2).
Proof.
  induction 1 as [| f t _ IH | e t Hne _ IH]; intros H2; simpl.
  - done.
  - constructor. by apply IH.
  - constructor; [done | by apply IH].
Qed.

Lemma mkdirp_first_log (l : level) (msg : string) (t : list event) :
  mkdirp_first t → mkdirp_first (Log l msg :: t).
Proof. by constructor. Qed.

Lemma mkdirp_first_fetch (url : string) (t : list event) :
  mkdirp_first t → mkdirp_first (Fetch url :: t).
Proof. by constructor. Qed.

Lemma mkdirp_first_pipe (f bytes : string) (t : list event) :
  mkdirp_first t → mkdirp_first (Pipe f bytes :: t).
Proof. by constructor. Qed.

Lemma mkdirp_first_mkdirp (d : string) (t : list event) :
  mkdirp_first t → mkdirp_first (Mkdirp d :: t).
Proof. by constructor. Qed.

Lemma mkdirp_first_free (t : list event) :
  (∀ f, CreateWriteStream f ∉ t) → mkdirp_first t.
Proof.
  induction t as [|ev t IH]; intros Hfree; [constructor |].
  apply mkdirp_first_other.
  - intros f ->. apply (Hfree f). left.
  - apply IH. intros f Hin. apply (Hfree f). by right.
Qed.

Create HintDb trace.
#[export] Hint Resolve mkdirp_first_nil mkdirp_first_write mkdirp_first_log
  mkdirp_first_fetch mkdirp_first_pipe mkdirp_first_mkdirp mkdirp_first_app
  mkdirp_first_free : trace.

Lemma on_entry_no_flatten_trace {Key} (this : BuildEnvSetupCeConanDirect Key) (w : world)
    (libId version downloadPath : string) (e : entry) (fs : filesystem) :
  extractAllToRoot this = false →
  let t := trace_of (on_entry this w libId version downloadPath e fs) in
  mkdirp_first t
  ∧ ∀ f, CreateWriteStream f ∈ t → f = path.join [downloadPath; libId; name e].
Proof.
  intros Hflat t. subst t.
  assert (destination this downloadPath libId e
          = path.join [downloadPath; libId; name e]) as Hdest.
  { unfold destination, getDestinationFilepath. by rewrite Hflat. }
  split.
  2: { intros f [-> _]%on_entry_writes_guarded. done. }
  destruct (on_entry_trace this w libId version downloadPath e fs)
    as (tail & Hfree & [-> | [[_ ->] | ->]]); rewrite ?Hflat; cbn [app];
    auto with trace.
Qed.

Lemma extract_no_flatten_trace {Key} (this : BuildEnvSetupCeConanDirect Key) (w : world)
    (libId version downloadPath : string) (es : list entry) (fs : filesystem) :
  extractAllToRoot this = false →
  let t := trace_of (extract this w libId version downloadPath es fs) in
  mkdirp_first t
  ∧ ∀ f, CreateWriteStream f ∈ t →
         ∃ e, e ∈ es ∧ f = path.join [downloadPath; libId; name e].
Proof.
  intros Hflat. revert fs. induction es as [|e es IH]; intros fs; cbn zeta.
  - cbn. split; [constructor | set_solver].
  - rewrite extract_cons. cbn zeta.
    destruct (on_entry_no_flatten_trace this w libId version downloadPath e fs Hflat)
      as [Hg Hw].
    destruct (result_of (on_entry this w libId version downloadPath e fs)).
    + cbn [trace_of fst]. destruct (IH (fs_of (on_entry this w libId version downloadPath e fs)))
        as [Hg' Hw'].
      split; [by apply mkdirp_first_app |].
      intros f [Hin | Hin]%elem_of_app.
      * exists e. split; [left | by apply Hw].
      * destruct (Hw' f Hin) as (e' & ? & ?). exists e'. split; [by right | done].
    + cbn [trace_of fst]. split; [done |].
      intros f Hin. exists e. split; [left | by apply Hw].
Qed.

Lemma downloadAndExtractPackage_run {Key} (this : BuildEnvSetupCeConanDirect Key)
    (w : world) (libId version downloadPath url : string) (fs : filesystem) :
  ∃ logs : list event,
    (∀ ev, ev ∈ logs → ∃ msg, ev = Log LError msg)
    ∧ ((trace_of (downloadAndExtractPackage this w libId version downloadPath url fs)
          = Fetch url :: logs
        ∧ fs_of (downloadAndExtractPackage this w libId version downloadPath url fs) = fs)
       ∨ ∃ status tgz,
           package w url = PackageResponse status (Some tgz)
           ∧ trace_of (downloadAndExtractPackage this w libId version downloadPath url fs)
             = Fetch url
               :: trace_of (extract this w libId version downloadPath (tar_entries tgz) fs)
               ++ logs
           ∧ fs_of (downloadAndExtractPackage this w libId version downloadPath url fs)
             = fs_of (extract this w libId version downloadPath (tar_entries tgz) fs)).
Proof.
  unfold downloadAndExtractPackage. rewrite run_bind. cbn [emit trace_of fs_of result_of fst snd].
  destruct (package w url) as [error | status [tgz |]].
  - eexists [_]. split; [intros ev ->%list_elem_of_singleton; by eexists |]. by left.
  - destruct ((200 <=? status)%N && (status <=? 299)%N).
    + rewrite run_bind.
      destruct (result_of (extract this w libId version downloadPath (tar_entries tgz) fs)).
      * exists []. split; [by intros ev ?%elem_of_nil |]. right. exists status, tgz.
        by rewrite run_ret.
      * destruct (tar_ending tgz).
        -- exists []. split; [by intros ev ?%elem_of_nil |]. right. exists status, tgz.
           by rewrite run_ret.
        -- eexists [_]. split; [intros ev ->%list_elem_of_singleton; by eexists |].
           right. by exists status, tgz.
        -- eexists [_]. split; [intros ev ->%list_elem_of_singleton; by eexists |].
           right. by exists status, tgz.
    + eexists [_]. split; [intros ev ->%list_elem_of_singleton; by eexists |]. by left.
  - eexists [_]. split; [intros ev ->%list_elem_of_singleton; by eexists |]. by left.
Qed.

Lemma mkdirp_first_logs (logs : list event) :
  (∀ ev, ev ∈ logs → ∃ msg, ev = Log LError msg) → mkdirp_first logs.
Proof.
  induction logs as [|ev logs IH]; intros H; [constructor |].
  destruct (H ev) as [msg ->]; [left |].
  apply mkdirp_first_log, IH. intros ev' Hin. apply H. by right.
Qed.

(** What the guard does ensure: the directory of every file the extraction
    opens, resolved, has [downloadPath] as a prefix of its name. *)
Lemma extract_writes_guarded {Key : Type} (this : BuildEnvSetupCeConanDirect Key)
    (w : world) (libId version downloadPath : string) (es : list entry)
    (fs : filesystem) (f : string) :
  CreateWriteStream f ∈ trace_of (extract this w libId version downloadPath es fs) →
  ∃ e, e ∈ es
       ∧ f = destination this downloadPath libId e
       ∧ passes_guard this w downloadPath libId e = true.
Proof.
  revert fs. induction es as [|e es IH]; intros fs.
  - cbn. by intros ?%elem_of_nil.
  - rewrite extract_cons. cbn zeta.
    destruct (result_of (on_entry this w libId version downloadPath e fs)).
    + cbn [trace_of fst]. intros [Hin | Hin]%elem_of_app.
      * exists e. split; [left |]. by eapply on_entry_writes_guarded.
      * destruct (IH _ Hin) as (e' & ? & ?). exists e'. split; [by right | done].
    + cbn [trace_of fst]. intros Hin.
      exists e. split; [left |]. by eapply on_entry_writes_guarded.
Qed.

Lemma writes_have_the_root_as_prefix {Key : Type} (this : BuildEnvSetupCeConanDirect Key)
    (w : world) (libId version downloadPath url : string) (fs : filesystem) (f : string) :
  CreateWriteStream f
    ∈ trace_of (downloadAndExtractPackage this w libId version downloadPath url fs) →
  startsWith (path.resolve (cwd w) (path.dirname f)) downloadPath = true.
Proof.
  destruct (downloadAndExtractPackage_run this w libId version downloadPath url fs)
    as (logs & Hlogs & [[-> _] | (status & tgz & _ & -> & _)]).
  - intros [? | Hin]%elem_of_cons; [done |]. by destruct (Hlogs _ Hin).
  - intros [? | [Hin | Hin]%elem_of_app]%elem_of_cons; [done | |].
    + by destruct (extract_writes_guarded _ _ _ _ _ _ _ _ Hin) as (e & _ & -> & Hg).
    + by destruct (Hlogs _ Hin).
Qed.

(** ** The constructor and the flatten mode *)

(** C10. The constructor sets [extractAllToRoot] to [false]; methods only read
    the object (in the embedding it is an argument, never part of the state
    they transform), so every extraction by a constructed object takes the
    non-flatten branch: each destination is
    [path.join(downloadPath, libId, entry name)], and in the trace of
    [downloadAndExtractPackage] every [createWriteStream(f)] comes right
    after [mkdirp(path.dirname(f))]. *)
Theorem constructor_extracts_without_flatten {Key : Type} (base : BuildEnvSetupBase Key)
    (props : string → prop) (w : world) (libId version downloadPath url : string)
    (fs : filesystem) :
  let this := constructor base props in
  let t := trace_of (downloadAndExtractPackage this w libId version downloadPath url fs) in
  extractAllToRoot this = false
  ∧ (∀ zippedPath,
       getDestinationFilepath this downloadPath zippedPath libId
       = path.join [downloadPath; libId; zippedPath])
  ∧ mkdirp_first t
  ∧ (∀ f, CreateWriteStream f ∈ t →
          ∃ zippedPath, f = path.join [downloadPath; libId; zippedPath]).
Proof.
  intros this t. split; [done |]. split; [done |].
  destruct (downloadAndExtractPackage_run this w libId version downloadPath url fs)
    as (logs & Hlogs & [[Ht _] | (status & tgz & _ & Ht & _)]);
    subst t; rewrite Ht.
  - split.
    + apply mkdirp_first_fetch. by apply mkdirp_first_logs.
    + intros f [? | Hin]%elem_of_cons; [done |].
      by destruct (Hlogs _ Hin).
  - destruct (extract_no_flatten_trace this w libId version downloadPath
                (tar_entries tgz) fs eq_refl) as [Hg Hw].
    split.
    + apply mkdirp_first_fetch, mkdirp_first_app; [done | by apply mkdirp_first_logs].
    + intros f [? | [Hin | Hin]%elem_of_app]%elem_of_cons; [done | |].
      * destruct (Hw f Hin) as (e & _ & ->). by eexists.
      * by destruct (Hlogs _ Hin).
Qed.

(** ** Destination paths *)

Lemma join_under_library (downloadPath libId zippedPath : string) :
  libId ≠ EmptyString → zippedPath ≠ EmptyString →
  path.join [downloadPath; libId; zippedPath]
  = path.join [downloadPath; libId +:+ "/" +:+ zippedPath].
Proof.
  intros Hl Hz. unfold path.join.
  assert (libId +:+ "/" +:+ zippedPath ≠ EmptyString) as Hlz.
  { by destruct libId. }
  rewrite !filter_cons, filter_nil.
  destruct (decide (downloadPath ≠ EmptyString)) as [Hd | Hd];
    repeat (case_decide; [| done]); [reflexivity |].
  cbn [String.concat]. by destruct libId.
Qed.

(** A well-formed entry under a canonical root, without flatten: once its
    directory can be made, and unless a directory has its name, the file is
    written with the entry's bytes. *)
Lemma on_entry_well_formed {Key : Type} (this : BuildEnvSetupCeConanDirect Key)
    (w : world) (rs ns : list string) (last libId version : string) (e : entry)
    (fs : filesystem) :
  extractAllToRoot this = false →
  Forall (λ seg, plain seg = true) (rs ++ libId :: ns ++ [last]) → rs ≠ [] →
  name e = String.concat "/" (ns ++ [last]) →
  size e ≠ 0%N → fault e = None →
  let dir := absolute (rs ++ libId :: ns) in
  let file := absolute (rs ++ libId :: ns ++ [last]) in
  mkdirp_error w fs dir = None →
  file ∉ directories fs →
  on_entry this w libId version (absolute rs) e fs
  = ([Mkdirp dir; CreateWriteStream file; Pipe file (data e)],
     Disk (<[file := data e]> (files fs))
          (directories fs ∪ list_to_set (ancestry w dir)),
     Next).
Proof.
  intros Hflat Hall Hne Hname Hsize Hfault dir file Hmk Hfile.
  assert (ns ++ [last] ≠ []) as Hnn by (by destruct ns).
  assert (rs ++ libId :: ns ++ [last] = (rs ++ libId :: ns) ++ [last]) as Hsplit.
  { by rewrite <- app_assoc. }
  assert (rs ++ libId :: ns ≠ []) as Hdn by (by destruct rs).
  pose proof (well_formed_destination this rs (ns ++ [last]) libId e
                Hflat Hall Hne Hnn Hname) as Hdest.
  pose proof (well_formed_passes_guard this w rs (ns ++ [last]) libId e
                Hflat Hall Hne Hnn Hname) as Hguard.
  fold file in Hdest. rewrite Hsplit in Hall.
  assert (path.dirname file = dir) as Hdir.
  { subst file dir. rewrite Hsplit. by apply dirname_absolute. }
  assert (path.resolve (cwd w) file = file) as Hres.
  { subst file. rewrite Hsplit. apply resolve_absolute; [done | by destruct rs]. }
  assert (made_ready this w (absolute rs) libId e fs
          = Disk (files fs) (directories fs ∪ list_to_set (ancestry w dir))) as Hready.
  { unfold made_ready. rewrite Hflat, Hdest, Hdir. by apply mkdirp_directories. }
  rewrite on_entry_piped; [| done | right; by rewrite Hdest, Hdir | | done].
  2: { unfold made_ready. rewrite Hflat, Hdest, Hdir. subst file dir. rewrite Hsplit.
       apply open_error_after_mkdirp; [done | done | done | by rewrite <- Hsplit]. }
  rewrite Hflat, Hfault, Hdest, Hdir, Hres, Hready. cbn [app]. f_equal. f_equal.
  apply disk_eq.
  - apply (insert_insert_eq (M := gmap string)).
  - unfold insert, filesystem_insert. cbn [files directories].
    subst file dir. rewrite Hsplit, (above_ancestry w) by done. set_solver.
Qed.

(** The fixture archive of [mylib], extracted without flatten under any
    canonical root on a fresh file system. *)
Lemma mylib_archive_extracts {Key : Type} (this : BuildEnvSetupCeConanDirect Key)
    (w : world) (rs : list string) :
  extractAllToRoot this = false →
  Forall (λ seg, plain seg = true) rs → rs ≠ [] →
  let root := absolute rs in
  let r := extract this w "mylib" "1.0" root (tar_entries Fixture.mylib_tgz) ∅ in
  result_of r = None
  ∧ fs_of r = {[ root +:+ "/mylib/include/foo.h" := "#pragma once";
                 root +:+ "/mylib/lib/libfoo.a" := "!<arch>" ]}.
Proof.
  intros Hflat Hrs Hne root r. subst r root.
  set (e1 := Fixture.file "include/foo.h" "#pragma once").
  set (e2 := Fixture.file "lib/libfoo.a" "!<arch>").
  change (tar_entries Fixture.mylib_tgz) with [e1; e2].
  assert (Forall (λ seg, plain seg = true) (rs ++ "mylib" :: ["include"] ++ ["foo.h"]))
    as Hp1.
  { apply Forall_app. split; [done |]. by repeat constructor. }
  assert (Forall (λ seg, plain seg = true) (rs ++ "mylib" :: ["lib"] ++ ["libfoo.a"]))
    as Hp2.
  { apply Forall_app. split; [done |]. by repeat constructor. }
  assert (Forall (λ seg, plain seg = true) (rs ++ ["mylib"; "lib"])) as Hq2.
  { apply Forall_app. split; [done |]. by repeat constructor. }
  set (k1 := absolute (rs ++ "mylib" :: ["include"] ++ ["foo.h"])).
  set (k2 := absolute (rs ++ "mylib" :: ["lib"] ++ ["libfoo.a"])).
  set (dir1 := absolute (rs ++ ["mylib"; "include"])).
  set (dir2 := absolute (rs ++ ["mylib"; "lib"])).
  assert (∀ p, p ∈ ancestry w dir1 → p ≠ k2) as Hshort.
  { intros p Hin Heq. subst dir1 k2. rewrite ancestry_absolute in Hin;
      [| by apply Forall_app; split; [| repeat constructor] | by destruct rs].
    apply list_elem_of_In, in_map_iff in Hin as (k & <- & Hk%in_seq).
    apply absolute_inj in Heq; [| | done | | by destruct rs].
    - apply (f_equal length) in Heq. rewrite length_take, !length_app in Heq.
      cbn in Heq. lia.
    - apply Forall_take, Forall_app. split; [done |]. by repeat constructor.
    - destruct k; [lia |]. by destruct rs. }
  rewrite extract_cons. cbn zeta.
  rewrite (on_entry_well_formed this w rs ["include"] "foo.h" "mylib" "1.0" e1 ∅
             Hflat Hp1 Hne eq_refl ltac:(done) eq_refl (mkdirp_error_fresh _ _));
    [| cbn; set_solver].
  cbn [trace_of fs_of result_of fst snd]. fold k1 dir1.
  rewrite extract_cons. cbn zeta.
  rewrite (on_entry_well_formed this w rs ["lib"] "libfoo.a" "mylib" "1.0" e2 _
             Hflat Hp2 Hne eq_refl ltac:(done) eq_refl).
  2: { fold dir2. apply mkdirp_error_clear; [done | by destruct rs |].
       intros k Hk. apply (lookup_insert_None (M := gmap string)).
       split; [apply lookup_empty |].
       intros Heq. apply absolute_inj in Heq; [| done | | by destruct rs |].
       - apply (f_equal length) in Heq. rewrite length_take in Heq.
         rewrite !length_app in Heq. cbn in Heq. lia.
       - by apply Forall_take.
       - destruct k; [lia |]. by destruct rs. }
  2: { fold k2. cbn [directories].
       intros [Hin | Hin%elem_of_list_to_set]%elem_of_union; [set_solver |].
       by apply (Hshort k2). }
  cbn [trace_of fs_of result_of fst snd extract]. fold k2 dir2.
  rewrite run_ret. cbn [trace_of fs_of result_of fst snd files directories].
  split; [done |].
  assert (k1 = absolute rs +:+ "/mylib/include/foo.h") as <-.
  { subst k1. by rewrite absolute_app. }
  assert (k2 = absolute rs +:+ "/mylib/lib/libfoo.a") as <-.
  { subst k2. by rewrite absolute_app. }
  assert (k1 ≠ k2) as Hk.
  { subst k1 k2. intros Heq.
    apply absolute_inj in Heq; [| done | done | by destruct rs | by destruct rs].
    by apply app_inv_head in Heq. }
  apply disk_eq.
  - change (files {[k1 := "#pragma once"; k2 := "!<arch>"]})
      with (<[k1 := "#pragma once"]> (<[k2 := "!<arch>"]> (∅ : gmap string string))).
    cbn [e1 e2 Fixture.file data].
    by apply (insert_insert_ne (M := gmap string)).
  - change (directories {[k1 := "#pragma once"; k2 := "!<arch>"]})
      with ((∅ ∪ list_to_set (above k2)) ∪ list_to_set (above k1) : gset string).
    subst k1 k2 dir1 dir2.
    assert (rs ++ "mylib" :: ["include"] ++ ["foo.h"]
            = (rs ++ ["mylib"; "include"]) ++ ["foo.h"]) as -> by (by rewrite <- app_assoc).
    assert (rs ++ "mylib" :: ["lib"] ++ ["libfoo.a"]
            = (rs ++ ["mylib"; "lib"]) ++ ["libfoo.a"]) as -> by (by rewrite <- app_assoc).
    rewrite !(above_ancestry w); [set_solver | | by destruct rs | | by destruct rs].
    all: repeat (apply Forall_app; split); try done; by repeat constructor.
Qed.

(** C7. [getDestinationFilepath] is [path.join(downloadPath, basename(entry))]
    in flatten mode and [path.join(downloadPath, libId, entry)] otherwise.
    Without flatten the entries [include/foo.h] and [lib/libfoo.a] of library
    [mylib] go to [destinationRoot/mylib/include/foo.h] and
    [destinationRoot/mylib/lib/libfoo.a]: as paths for every root, as these
    very strings for a canonical absolute root, where extracting the fixture
    archive on a fresh file system leaves exactly these two files. *)
Theorem getDestinationFilepath_by_mode {Key : Type} (this : BuildEnvSetupCeConanDirect Key)
    (downloadPath zippedPath libId : string) :
  (extractAllToRoot this = true →
     getDestinationFilepath this downloadPath zippedPath libId
     = path.join [downloadPath; path.basename zippedPath])
  ∧ (extractAllToRoot this = false →
     getDestinationFilepath this downloadPath zippedPath libId
     = path.join [downloadPath; libId; zippedPath])
  ∧ (extractAllToRoot this = false →
     getDestinationFilepath this downloadPath "include/foo.h" "mylib"
     = path.join [downloadPath; "mylib/include/foo.h"]
     ∧ getDestinationFilepath this downloadPath "lib/libfoo.a" "mylib"
       = path.join [downloadPath; "mylib/lib/libfoo.a"])
  ∧ (∀ (w : world) (rs : list string),
       extractAllToRoot this = false →
       Forall (λ seg, plain seg = true) rs → rs ≠ [] →
       let destinationRoot := absolute rs in
       getDestinationFilepath this destinationRoot "include/foo.h" "mylib"
       = destinationRoot +:+ "/mylib/include/foo.h"
       ∧ getDestinationFilepath this destinationRoot "lib/libfoo.a" "mylib"
         = destinationRoot +:+ "/mylib/lib/libfoo.a"
       ∧ fs_of (extract this w "mylib" "1.0" destinationRoot
                  (tar_entries Fixture.mylib_tgz) ∅)
         = {[ destinationRoot +:+ "/mylib/include/foo.h" := "#pragma once";
              destinationRoot +:+ "/mylib/lib/libfoo.a" := "!<arch>" ]})
  ∧ getDestinationFilepath Fixture.flat "/tmp/build" "include/foo.h" "mylib"
    = "/tmp/build/foo.h".
Proof.
  split; [unfold getDestinationFilepath; by intros -> |].
  split; [unfold getDestinationFilepath; by intros -> |].
  split; [unfold getDestinationFilepath; intros ->; split; by apply join_under_library |].
  split; [| by vm_compute].
  intros w rs Hflat Hrs Hne destinationRoot. unfold getDestinationFilepath. rewrite Hflat.
  assert (∀ ns, Forall (λ seg, plain seg = true) ns → ns ≠ [] →
                path.join [destinationRoot; "mylib"; String.concat "/" ns]
                = destinationRoot +:+ String "/" (String.concat "/" ("mylib" :: ns)))
    as Hjoin.
  { intros ns Hns Hnn. subst destinationRoot. rewrite join_absolute; [| | done | done].
    - by rewrite absolute_app.
    - apply Forall_app. split; [done |]. by constructor. }
  split; [apply (Hjoin ["include"; "foo.h"]); [by repeat constructor | done] |].
  split; [apply (Hjoin ["lib"; "libfoo.a"]); [by repeat constructor | done] |].
  by apply (mylib_archive_extracts this w rs).
Qed.

Lemma getDestinationFilepath_by_mode_witness :
  absolute ["tmp"; "build"] = "/tmp/build"
  ∧ fs_of (downloadAndExtractPackage Fixture.ceconan (Fixture.server Fixture.mylib_tgz)
             "mylib" "1.0" "/tmp/build" "https://conan.example/files/mylib.tgz" ∅)
    = {[ "/tmp/build/mylib/include/foo.h" := "#pragma once";
         "/tmp/build/mylib/lib/libfoo.a" := "!<arch>" ]}.
Proof.
  split; [reflexivity |].
  pose proof (getDestinationFilepath_by_mode Fixture.ceconan "/tmp/build" "include/foo.h"
                "mylib") as (_ & _ & _ & Hroot & _).
  destruct (Hroot (Fixture.server Fixture.mylib_tgz) ["tmp"; "build"])
    as (_ & _ & Hfs); [reflexivity | by repeat constructor | done |].
  exact Hfs.
Defined.

(** ** The build descriptor *)

(** C9. Whatever the key, the descriptor has [os = "Linux"],
    [build_type = "Debug"], [stdver = ""] and [flagcollection = ""]; its
    [compiler.version] is the compiler's id; and the object has exactly the
    eight attributes, each bound to a string. *)
Theorem getConanBuildProperties_constants {Key : Type}
    (this : BuildEnvSetupCeConanDirect Key) (key : Key) :
  let d := getConanBuildProperties this key in
  os d = "Linux"
  ∧ build_type d = "Debug"
  ∧ stdver d = EmptyString
  ∧ flagcollection d = EmptyString
  ∧ compiler_version d = compiler_id (super this)
  ∧ (entries d).*1 = ["os"; "build_type"; "compiler"; "compiler.version";
                      "compiler.libcxx"; "arch"; "stdver"; "flagcollection"]
  ∧ Forall (λ attribute, ∃ value : string, (attribute, value) ∈ entries d)
           ["os"; "build_type"; "compiler"; "compiler.version";
            "compiler.libcxx"; "arch"; "stdver"; "flagcollection"].
Proof.
  cbn zeta. repeat (split; [reflexivity |]).
  unfold entries.
  repeat (apply Forall_cons; split;
          [eexists; repeat first [apply list_elem_of_here | apply list_elem_of_further] |]).
  by apply Forall_nil.
Qed.

(** ** The early returns of [setup] *)

(** C6. With no host configured, or with [onlyonstaticliblink] set and
    [binary] false, [setup] fulfils with the empty list, emits no event (no
    request, no file operation) and leaves the file system as it was. *)
Theorem setup_is_a_noop {Key : Type} (this : BuildEnvSetupCeConanDirect Key) (w : world)
    (key : Key) (dirPath : string) (libraryDetails : list (string * LibraryVersion))
    (binary : bool) (fs : filesystem) :
  truthy (host this) = false
  ∨ (truthy (onlyonstaticliblink this) = true ∧ binary = false) →
  setup this w key dirPath libraryDetails binary fs = ([], fs, Fulfilled []).
Proof.
  unfold setup. intros [-> | [-> ->]]; [done |].
  by destruct (truthy (host this)).
Qed.

Lemma setup_is_a_noop_witness :
  truthy (host (constructor Fixture.base (λ _, PBool false))) = false
  ∧ setup (constructor Fixture.base (λ _, PBool false))
          (Fixture.server Fixture.mylib_tgz) tt "/tmp/build"
          [("mylib", Fixture.mylib)] true ∅
    = ([], ∅, Fulfilled []).
Proof.
  split; [reflexivity |].
  apply (setup_is_a_noop (constructor Fixture.base (λ _, PBool false))).
  left. reflexivity.
Defined.

(** ** Extraction *)

(** An entry that fails the guard writes nothing, and the entries after it
    are processed on the untouched file system. *)
Lemma rejected_entry_is_skipped {Key : Type} (this : BuildEnvSetupCeConanDirect Key)
    (w : world) (libId version downloadPath : string) (e : entry) (rest : list entry)
    (fs : filesystem) :
  passes_guard this w downloadPath libId e = false →
  fs_of (on_entry this w libId version downloadPath e fs) = fs
  ∧ (∀ f, CreateWriteStream f ∉ trace_of (on_entry this w libId version downloadPath e fs))
  ∧ fs_of (extract this w libId version downloadPath (e :: rest) fs)
    = fs_of (extract this w libId version downloadPath rest fs)
  ∧ result_of (extract this w libId version downloadPath (e :: rest) fs)
    = result_of (extract this w libId version downloadPath rest fs).
Proof.
  intros Hfail. rewrite extract_cons. cbn zeta.
  rewrite on_entry_skipped by done. cbn [trace_of fs_of result_of fst snd].
  repeat split. intros f [? | ?%elem_of_nil]%elem_of_cons; done.
Qed.

(** The specification's example: the entry ["../../evil"] is skipped, nothing
    is written outside [/tmp/build], and the well-formed entries around it
    are extracted. *)
Lemma evil_entry_is_skipped :
  let r := downloadAndExtractPackage Fixture.ceconan (Fixture.server Fixture.evil_tgz)
             "mylib" "1.0" "/tmp/build" "https://conan.example/files/mylib.tgz" ∅ in
  fs_of r = {[ "/tmp/build/mylib/include/foo.h" := "#pragma once";
               "/tmp/build/mylib/lib/libfoo.a" := "!<arch>" ]}
  ∧ Log LError "Library mylib/1.0 is using a zip-slip, skipping file" ∈ trace_of r
  ∧ ∃ info, result_of r = Fulfilled info.
Proof.
  cbn zeta. split; [by vm_compute |]. split.
  - by_evaluation.
  - eexists. by vm_compute.
Qed.

(** C1: behaviour at the failing input. The guard compares strings:
    [/tmp/build-evil] starts with [/tmp/build], so the entry
    ["../../build-evil/pwn"] passes it and its file is written outside the
    destination root [/tmp/build]. *)
Theorem zip_slip_guard_accepts_sibling_directory :
  let r := downloadAndExtractPackage Fixture.ceconan (Fixture.server Fixture.sibling_tgz)
             "mylib" "1.0" "/tmp/build" "https://conan.example/files/mylib.tgz" ∅ in
  getDestinationFilepath Fixture.ceconan "/tmp/build" "../../build-evil/pwn" "mylib"
  = "/tmp/build-evil/pwn"
  ∧ lies_under "/tmp/build" "/tmp/build/mylib/include/foo.h" = true
  ∧ lies_under "/tmp/build" "/tmp/build-evil/pwn" = false
  ∧ lies_under "/tmp/build" "/tmp/build-evil" = false
  ∧ startsWith "/tmp/build-evil" "/tmp/build" = true
  ∧ fs_of r !! "/tmp/build-evil/pwn" = Some "payload"
  ∧ Mkdirp "/tmp/build-evil" ∈ trace_of r
  ∧ CreateWriteStream "/tmp/build-evil/pwn" ∈ trace_of r
  ∧ ∃ info, result_of r = Fulfilled info.
Proof.
  cbn zeta. do 6 (split; [by vm_compute |]).
  do 2 (split; [by_evaluation |]).
  eexists. by vm_compute.
Qed.

(** The promise of an extraction whose first entry cannot have its directory
    made is rejected with the error of [mkdirp]. *)
Lemma mkdirp_throws_rejects {Key : Type} (this : BuildEnvSetupCeConanDirect Key)
    (w : world) (libId version downloadPath url : string) (e : entry) (rest : list entry)
    (status : N) (tgz : tarball) (fs : filesystem) (error : string) :
  passes_guard this w downloadPath libId e = true →
  extractAllToRoot this = false →
  mkdirp_error w fs (path.dirname (destination this downloadPath libId e)) = Some error →
  package w url = PackageResponse status (Some tgz) →
  (200 ≤ status ≤ 299)%N →
  tar_entries tgz = e :: rest →
  result_of (downloadAndExtractPackage this w libId version downloadPath url fs)
  = Rejected error.
Proof.
  intros Hpass Hflat Hmk Hpkg [Hlo Hhi] Htar.
  unfold downloadAndExtractPackage. rewrite run_bind, Hpkg.
  apply N.leb_le in Hlo, Hhi. rewrite Hlo, Hhi. cbn [andb].
  rewrite run_bind, Htar, extract_cons. cbn zeta.
  rewrite (on_entry_mkdirp_throws _ _ _ _ _ _ _ error) by done.
  cbn [trace_of fs_of result_of fst snd]. by rewrite run_ret.
Qed.

(** A directory header [include/] reaches [createWriteStream] as any other
    entry does ([header.type] is never read): the open fails with [EISDIR],
    nothing listens to the stream's ['error'], and no file is made. *)
Lemma directory_entry_is_not_opened :
  let w := Fixture.server Fixture.mylib_tgz in
  let e := {| name := "include/"; size := 0; data := EmptyString; fault := None |} in
  let r := on_entry Fixture.ceconan w "mylib" "1.0" "/tmp/build" e ∅ in
  getDestinationFilepath Fixture.ceconan "/tmp/build" (name e) "mylib"
  = "/tmp/build/mylib/include/"
  ∧ passes_guard Fixture.ceconan w "/tmp/build" "mylib" e = true
  ∧ mkdirp_error w ∅ "/tmp/build/mylib" = None
  ∧ open_error w (made_ready Fixture.ceconan w "/tmp/build" "mylib" e ∅)
                 "/tmp/build/mylib/include/"
    = Some "EISDIR: illegal operation on a directory, open '/tmp/build/mylib/include/'"
  ∧ trace_of r
    = [Mkdirp "/tmp/build/mylib"; CreateWriteStream "/tmp/build/mylib/include/";
       Unhandled "EISDIR: illegal operation on a directory, open '/tmp/build/mylib/include/'"]
  ∧ files (fs_of r) = ∅.
Proof.
  cbn zeta. repeat split; by vm_compute.
Qed.

(** In flatten mode no directory is made: where the download directory is
    missing, the open fails with [ENOENT] and no file is made. *)
Lemma flatten_needs_the_directory :
  let w := Fixture.server Fixture.empty_tgz in
  let e := Fixture.file "include/empty.h" EmptyString in
  let r := on_entry Fixture.flat w "mylib" "1.0" "/tmp/build" e ∅ in
  getDestinationFilepath Fixture.flat "/tmp/build" (name e) "mylib" = "/tmp/build/empty.h"
  ∧ passes_guard Fixture.flat w "/tmp/build" "mylib" e = true
  ∧ open_error w ∅ "/tmp/build/empty.h"
    = Some "ENOENT: no such file or directory, open '/tmp/build/empty.h'"
  ∧ trace_of r
    = [CreateWriteStream "/tmp/build/empty.h";
       Unhandled "ENOENT: no such file or directory, open '/tmp/build/empty.h'"]
  ∧ fs_of r = ∅.
Proof.
  cbn zeta. repeat split; by vm_compute.
Qed.

(** C8 (amended). For an entry of size zero whose destination passes the
    guard:
    - when [mkdirp] throws (without flatten, a regular file sitting at the
      destination directory or above it), the handler logs the error as an
      error in entry handling and rejects with it: nothing is opened, the
      disk is as it was, and the promise of an extraction that starts with
      this entry is rejected with that error;
    - when the destination directory can be made (flatten mode makes none)
      and the destination can then be opened for writing, the entry is
      completed without error and without a write: the handler calls
      [next()], no error is logged and none is left unhandled, nothing is
      piped, the file at the destination exists and is empty, and the
      handler is given the entries after it, on the disk as it is by then. *)
Theorem empty_entry_is_created {Key : Type} (this : BuildEnvSetupCeConanDirect Key)
    (w : world) (libId version downloadPath : string) (e : entry) (fs : filesystem) :
  let filepath := getDestinationFilepath this downloadPath (name e) libId in
  let r := on_entry this w libId version downloadPath e fs in
  size e = 0%N →
  startsWith (path.resolve (cwd w) (path.dirname filepath)) downloadPath = true →
  (∀ error,
     extractAllToRoot this = false →
     mkdirp_error w fs (path.dirname filepath) = Some error →
     result_of r = Reject error
     ∧ (∃ rendered, Log LError ("Error in entry handling: " +:+ rendered) ∈ trace_of r)
     ∧ (∀ f, CreateWriteStream f ∉ trace_of r)
     ∧ fs_of r = fs
     ∧ ∀ rest url status tgz,
         package w url = PackageResponse status (Some tgz) →
         (200 ≤ status ≤ 299)%N →
         tar_entries tgz = e :: rest →
         result_of (downloadAndExtractPackage this w libId version downloadPath url fs)
         = Rejected error)
  ∧ (extractAllToRoot this = true ∨ mkdirp_error w fs (path.dirname filepath) = None →
     open_error w (made_ready this w downloadPath libId e fs) filepath = None →
     result_of r = Next
     ∧ (∀ msg, Log LError msg ∉ trace_of r)
     ∧ (∀ error, Unhandled error ∉ trace_of r)
     ∧ (∀ f bytes, Pipe f bytes ∉ trace_of r)
     ∧ CreateWriteStream filepath ∈ trace_of r
     ∧ fs_of r !! path.resolve (cwd w) filepath = Some EmptyString
     ∧ ∀ rest, ∃ disk,
         extract this w libId version downloadPath (e :: rest) fs
         = (trace_of r ++ trace_of (extract this w libId version downloadPath rest disk),
            fs_of (extract this w libId version downloadPath rest disk),
            result_of (extract this w libId version downloadPath rest disk))).
Proof.
  intros filepath r Hsize Hpass. subst r filepath.
  fold (destination this downloadPath libId e) in *.
  fold (passes_guard this w downloadPath libId e) in Hpass.
  split.
  - intros error Hflat Hmk.
    rewrite (on_entry_mkdirp_throws _ _ _ _ _ _ _ error) by done.
    cbn [trace_of fs_of result_of fst snd].
    split; [done |]. split; [eexists; right; left |]. split; [| split; [done |]].
    + intros f Hin. repeat (apply elem_of_cons in Hin as [? | Hin]; [done |]).
      by apply elem_of_nil in Hin.
    + intros rest url status tgz Hpkg Hstatus Htar.
      by eapply mkdirp_throws_rejects.
  - intros Hdir Hopen.
    assert (∀ rest, ∃ disk,
              extract this w libId version downloadPath (e :: rest) fs
              = (trace_of (on_entry this w libId version downloadPath e fs)
                   ++ trace_of (extract this w libId version downloadPath rest disk),
                 fs_of (extract this w libId version downloadPath rest disk),
                 result_of (extract this w libId version downloadPath rest disk)))
      as Hrest.
    { intros rest. eexists. rewrite extract_cons. cbn zeta.
      by rewrite on_entry_empty by done. }
    revert Hrest. rewrite on_entry_empty by done. intros Hrest.
    cbn [trace_of fs_of result_of fst snd] in *.
    assert (∀ ev, ev ∈ (if extractAllToRoot this then []
                        else [Mkdirp (path.dirname (destination this downloadPath libId e))])
                       ++ [CreateWriteStream (destination this downloadPath libId e)] →
                  (∃ d, ev = Mkdirp d) ∨ ∃ f, ev = CreateWriteStream f) as Hshape.
    { intros ev [Hin | Hin%list_elem_of_singleton]%elem_of_app; [| right; by eexists].
      destruct (extractAllToRoot this); [by apply elem_of_nil in Hin |].
      apply list_elem_of_singleton in Hin. left. by eexists. }
    split; [done |].
    split; [intros msg [[? ?] | [? ?]]%Hshape; done |].
    split; [intros error [[? ?] | [? ?]]%Hshape; done |].
    split; [intros f bytes [[? ?] | [? ?]]%Hshape; done |].
    split; [apply elem_of_app; right; left |].
    split; [apply disk_lookup_insert_eq | exact Hrest].
Qed.

Lemma empty_entry_is_created_witness :
  let w := Fixture.server Fixture.empty_tgz in
  let e := Fixture.file "include/empty.h" EmptyString in
  let r := on_entry Fixture.ceconan w "mylib" "1.0" "/tmp/build" e ∅ in
  let occupied : filesystem := {[ "/tmp/build/mylib/include" := "notes" ]} in
  size e = 0%N
  ∧ startsWith (path.resolve (cwd w) "/tmp/build/mylib/include") "/tmp/build" = true
  ∧ mkdirp_error w ∅ "/tmp/build/mylib/include" = None
  ∧ open_error w (made_ready Fixture.ceconan w "/tmp/build" "mylib" e ∅)
                 "/tmp/build/mylib/include/empty.h" = None
  ∧ result_of r = Next
  ∧ fs_of r !! "/tmp/build/mylib/include/empty.h" = Some EmptyString
  ∧ mkdirp_error w occupied "/tmp/build/mylib/include"
    = Some "EEXIST: file already exists, mkdir '/tmp/build/mylib/include'"
  ∧ result_of (on_entry Fixture.ceconan w "mylib" "1.0" "/tmp/build" e occupied)
    = Reject "EEXIST: file already exists, mkdir '/tmp/build/mylib/include'".
Proof.
  cbn zeta.
  pose proof (empty_entry_is_created Fixture.ceconan (Fixture.server Fixture.empty_tgz)
                "mylib" "1.0" "/tmp/build" (Fixture.file "include/empty.h" EmptyString)
                ∅) as Hfresh.
  pose proof (empty_entry_is_created Fixture.ceconan (Fixture.server Fixture.empty_tgz)
                "mylib" "1.0" "/tmp/build" (Fixture.file "include/empty.h" EmptyString)
                {[ "/tmp/build/mylib/include" := "notes" ]}) as Hoccupied.
  cbn zeta in Hfresh, Hoccupied.
  destruct Hfresh as [_ Hmade]; [reflexivity | by vm_compute |].
  destruct Hmade as (Hnext & _ & _ & _ & _ & Hfile & _);
    [right; by vm_compute | by vm_compute |].
  destruct Hoccupied as [Hthrown _]; [reflexivity | by vm_compute |].
  destruct (Hthrown "EEXIST: file already exists, mkdir '/tmp/build/mylib/include'")
    as (Hreject & _); [reflexivity | by vm_compute |].
  split; [reflexivity |]. split; [by vm_compute |]. split; [by vm_compute |].
  split; [by vm_compute |]. split; [exact Hnext |]. split; [exact Hfile |].
  split; [by vm_compute | exact Hreject].
Defined.

(** C8, as stated, fails: the entry has size zero and passes the guard, but
    a regular file [include] is already on the disk where its directory
    should be; [mkdirp] throws, the promise rejects, and no file appears at
    the destination. *)
Lemma empty_entry_under_a_file_is_rejected :
  let w := Fixture.server Fixture.nested_tgz in
  let e := Fixture.file "include/foo.h" EmptyString in
  let occupied : filesystem := {[ "/tmp/build/mylib/include" := "notes" ]} in
  let r := on_entry Fixture.ceconan w "mylib" "1.0" "/tmp/build" e occupied in
  let run := downloadAndExtractPackage Fixture.ceconan w "mylib" "1.0" "/tmp/build"
               "https://conan.example/files/mylib.tgz" occupied in
  tar_entries Fixture.nested_tgz = [e]
  ∧ size e = 0%N
  ∧ getDestinationFilepath Fixture.ceconan "/tmp/build" (name e) "mylib"
    = "/tmp/build/mylib/include/foo.h"
  ∧ startsWith (path.resolve (cwd w) "/tmp/build/mylib/include") "/tmp/build" = true
  ∧ result_of r = Reject "EEXIST: file already exists, mkdir '/tmp/build/mylib/include'"
  ∧ fs_of r !! "/tmp/build/mylib/include/foo.h" = None
  ∧ result_of run = Rejected "EEXIST: file already exists, mkdir '/tmp/build/mylib/include'"
  ∧ fs_of run = occupied.
Proof.
  cbn zeta. repeat split; by vm_compute.
Qed.

(** ** Orchestration *)

Section Orchestration.
Context {Key : Type} (this : BuildEnvSetupCeConanDirect Key) (w : world).

Lemma getAllPossibleBuilds_fs (libid version : string) (fs : filesystem) :
  fs_of (getAllPossibleBuilds this w libid version fs) = fs
  ∧ result_of (getAllPossibleBuilds this w libid version fs)
    = result_of (getAllPossibleBuilds this w libid version ∅).
Proof.
  unfold getAllPossibleBuilds. rewrite !run_bind. cbn [emit fs_of result_of fst snd].
  by destruct (search w _).
Qed.

Lemma getAllPossibleBuilds_result (libid version : string) (fs : filesystem) :
  catch_false (result_of (getAllPossibleBuilds this w libid version fs))
  = match search w (search_url this libid version) with
    | SearchJson body => body
    | _ => None
    end.
Proof.
  unfold getAllPossibleBuilds. rewrite !run_bind. cbn [emit fs_of result_of fst snd].
  by destruct (search w _).
Qed.

Lemma start_listings_cons (libId : string) (details : LibraryVersion)
    (rest : list (string * LibraryVersion)) (fs : filesystem) :
  fs_of (start_listings this w ((libId, details) :: rest) fs)
  = fs_of (start_listings this w rest fs)
  ∧ result_of (start_listings this w ((libId, details) :: rest) fs)
    = (if packagedheaders details || hasBinariesToLink (super this) details
       then [{| lb_id := libId;
                lb_version := version details;
                lb_lookupname := lookupname details;
                lb_lookupversion := lookupversion details;
                lb_possibleBuilds :=
                  match search w (search_url this (or_else (lookupname details) libId)
                                    (or_else (lookupversion details) (version details))) with
                  | SearchJson body => body
                  | _ => None
                  end |}]
       else [])
      ++ result_of (start_listings this w rest fs).
Proof.
  cbn [start_listings].
  destruct (packagedheaders details || hasBinariesToLink (super this) details); [| done].
  rewrite !run_bind, run_ret. cbn [fs_of result_of fst snd].
  destruct (getAllPossibleBuilds_fs (or_else (lookupname details) libId)
              (or_else (lookupversion details) (version details)) fs) as [-> _].
  by rewrite getAllPossibleBuilds_result.
Qed.

Lemma start_listings_fs (libraryDetails : list (string * LibraryVersion))
    (fs : filesystem) :
  fs_of (start_listings this w libraryDetails fs) = fs.
Proof.
  induction libraryDetails as [|[libId details] rest IH]; [done |].
  by rewrite (proj1 (start_listings_cons _ _ _ _)).
Qed.

Lemma start_listings_any_fs (libraryDetails : list (string * LibraryVersion))
    (fs fs' : filesystem) :
  result_of (start_listings this w libraryDetails fs)
  = result_of (start_listings this w libraryDetails fs').
Proof.
  induction libraryDetails as [|[libId details] rest IH]; [done |].
  rewrite !(proj2 (start_listings_cons _ _ _ _)). by rewrite IH.
Qed.

Lemma start_listings_app (l1 l2 : list (string * LibraryVersion)) (fs : filesystem) :
  result_of (start_listings this w (l1 ++ l2) fs)
  = result_of (start_listings this w l1 fs) ++ result_of (start_listings this w l2 fs).
Proof.
  induction l1 as [|[libId details] l1 IH]; [done |].
  rewrite <- app_comm_cons, !(proj2 (start_listings_cons _ _ _ _)), IH.
  by rewrite app_assoc.
Qed.

Lemma provision_all_cons (bp : ConanBuildProperties) (dirPath : string)
    (lb : LibraryBuilds) (rest : list LibraryBuilds) (fs : filesystem) :
  let r := provision_one this w bp dirPath lb fs in
  let r' := provision_all this w bp dirPath rest (fs_of r) in
  provision_all this w bp dirPath (lb :: rest) fs
  = (trace_of r ++ trace_of r', fs_of r',
     match result_of r with Some d => [d] | None => [] end ++ result_of r').
Proof.
  cbn [provision_all]. rewrite !run_bind, run_ret.
  cbn [trace_of fs_of result_of fst snd]. rewrite app_nil_r.
  by destruct (result_of (provision_one this w bp dirPath lb fs)).
Qed.

Lemma provision_all_app (bp : ConanBuildProperties) (dirPath : string)
    (l1 l2 : list LibraryBuilds) (fs : filesystem) :
  let r1 := provision_all this w bp dirPath l1 fs in
  let r2 := provision_all this w bp dirPath l2 (fs_of r1) in
  provision_all this w bp dirPath (l1 ++ l2) fs
  = (trace_of r1 ++ trace_of r2, fs_of r2, result_of r1 ++ result_of r2).
Proof.
  revert fs. induction l1 as [|lb l1 IH]; intros fs; cbn zeta.
  - cbn [app provision_all]. rewrite run_ret. cbn [trace_of fs_of result_of fst snd app].
    apply run_eta.
  - rewrite <- app_comm_cons, !provision_all_cons. cbn zeta.
    rewrite IH. cbn [trace_of fs_of result_of fst snd].
    by rewrite !app_assoc.
Qed.

Lemma download_run (key : Key) (dirPath : string)
    (libraryDetails : list (string * LibraryVersion)) (fs : filesystem) :
  let listed := start_listings this w libraryDetails fs in
  let r := provision_all this w (getConanBuildProperties this key) dirPath
             (result_of listed) fs in
  download this w key dirPath libraryDetails fs
  = (trace_of listed ++ trace_of r, fs_of r, Promise_all (result_of r)).
Proof.
  unfold download. rewrite !run_bind, run_ret.
  cbn [trace_of fs_of result_of fst snd]. by rewrite app_nil_r, start_listings_fs.
Qed.

Lemma provision_one_unavailable (bp : ConanBuildProperties) (dirPath : string)
    (lb : LibraryBuilds) (fs : filesystem) :
  lb_possibleBuilds lb = None →
  provision_one this w bp dirPath lb fs
  = ([Log LWarn ("Library " +:+ (or_else (lb_lookupname lb) (lb_id lb) +:+ "/"
                                 +:+ or_else (lb_lookupversion lb) (lb_version lb))
                 +:+ " not available")], fs, None).
Proof. unfold provision_one. by intros ->. Qed.

Lemma provision_one_no_match (bp : ConanBuildProperties) (dirPath : string)
    (lb : LibraryBuilds) (builds : possibleBuilds) (fs : filesystem) :
  lb_possibleBuilds lb = Some builds →
  findMatchingHash bp builds = None →
  provision_one this w bp dirPath lb fs
  = ([Log LWarn ("No build found for "
                 +:+ (or_else (lb_lookupname lb) (lb_id lb) +:+ "/"
                      +:+ or_else (lb_lookupversion lb) (lb_version lb))
                 +:+ " matching " +:+ JSON_stringify bp)], fs, None).
Proof. unfold provision_one. by intros -> ->. Qed.

Lemma provision_one_matched (bp : ConanBuildProperties) (dirPath : string)
    (lb : LibraryBuilds) (builds : possibleBuilds) (hash : string) (fs : filesystem) :
  lb_possibleBuilds lb = Some builds →
  findMatchingHash bp builds = Some hash →
  truthy_string hash = true →
  result_of (provision_one this w bp dirPath lb fs)
  = Some (result_of (resolve_and_extract this w (lb_id lb)
                       (or_else (lb_lookupname lb) (lb_id lb))
                       (or_else (lb_lookupversion lb) (lb_version lb))
                       hash dirPath fs)).
Proof.
  unfold provision_one. intros -> -> ->. by rewrite !run_bind, run_ret.
Qed.

Lemma Promise_all_rejected {A} (ps : list (promise A)) (error : string) :
  Rejected error ∈ ps → ∃ reason, Promise_all ps = Rejected reason.
Proof.
  induction ps as [|[a | e] ps IH]; intros Hin.
  - by apply elem_of_nil in Hin.
  - apply elem_of_cons in Hin as [? | Hin]; [done |].
    destruct (IH Hin) as [reason Hr]. exists reason. cbn. by rewrite Hr.
  - by exists e.
Qed.

Lemma Promise_all_fulfilled {A} (ps : list (promise A)) (values : list A) :
  Promise_all ps = Fulfilled values ↔ ps = Fulfilled <$> values.
Proof.
  revert values. induction ps as [|[a | e] ps IH]; intros values; cbn.
  - split; [intros [= <-]; done | by destruct values].
  - destruct (Promise_all ps) as [l | e] eqn:Hp.
    + split.
      * intros [= <-]. cbn. f_equal. by apply IH.
      * destruct values as [|v values]; [done |]. intros [= -> Hps].
        apply IH in Hps. by simplify_eq.
    + split; [done |]. destruct values as [|v values]; [done |].
      intros [= -> Hps]. by apply IH in Hps.
  - split; [done | by destruct values].
Qed.

(** A library whose listing gives no usable candidate drops out of the run. *)
Lemma download_with_skipped (key : Key) (dirPath : string)
    (before after : list (string * LibraryVersion)) (libId : string)
    (details : LibraryVersion) (fs : filesystem) :
  let libVer := or_else (lookupname details) libId +:+ "/"
                +:+ or_else (lookupversion details) (version details) in
  (match search w (search_url this (or_else (lookupname details) libId)
                     (or_else (lookupversion details) (version details))) with
   | SearchJson (Some builds) =>
       findMatchingHash (getConanBuildProperties this key) builds = None
   | _ => True
   end) →
  result_of (download this w key dirPath (before ++ (libId, details) :: after) fs)
  = result_of (download this w key dirPath (before ++ after) fs)
  ∧ fs_of (download this w key dirPath (before ++ (libId, details) :: after) fs)
    = fs_of (download this w key dirPath (before ++ after) fs)
  ∧ (packagedheaders details || hasBinariesToLink (super this) details = true →
     ∃ msg,
       Log LWarn msg
         ∈ trace_of (download this w key dirPath (before ++ (libId, details) :: after) fs)
       ∧ (msg = "Library " +:+ libVer +:+ " not available"
          ∨ msg = "No build found for " +:+ libVer +:+ " matching "
                  +:+ JSON_stringify (getConanBuildProperties this key))).
Proof.
  intros libVer Hskip. rewrite !download_run. cbn zeta.
  cbn [trace_of fs_of result_of fst snd].
  rewrite !start_listings_app, (proj2 (start_listings_cons _ _ _ _)).
  set (bp := getConanBuildProperties this key).
  set (L1 := result_of (start_listings this w before fs)).
  set (L2 := result_of (start_listings this w after fs)).
  destruct (packagedheaders details || hasBinariesToLink (super this) details).
  2: { cbn [app]. repeat split. done. }
  set (lb := Build_LibraryBuilds _ _ _ _ _).
  rewrite !provision_all_app. cbn zeta. cbn [trace_of fs_of result_of fst snd].
  rewrite !provision_all_cons. cbn zeta. cbn [trace_of fs_of result_of fst snd].
  set (fs1 := fs_of (provision_all this w bp dirPath L1 fs)).
  assert (∃ msg, provision_one this w bp dirPath lb fs1 = ([Log LWarn msg], fs1, None)
                 ∧ (msg = "Library " +:+ libVer +:+ " not available"
                    ∨ msg = "No build found for " +:+ libVer +:+ " matching "
                            +:+ JSON_stringify bp))
    as (msg & Hone & Hmsg).
  { destruct (lb_possibleBuilds lb) as [builds |] eqn:Hb.
    - exists ("No build found for " +:+ libVer +:+ " matching " +:+ JSON_stringify bp).
      split; [| by right].
      rewrite (provision_one_no_match bp dirPath lb builds fs1 Hb); [done |].
      subst lb. cbn in Hb.
      destruct (search w _) as [| | | [builds' |]]; by simplify_eq.
    - exists ("Library " +:+ libVer +:+ " not available").
      split; [| by left].
      by rewrite (provision_one_unavailable bp dirPath lb fs1 Hb). }
  rewrite Hone. cbn [trace_of fs_of result_of fst snd app].
  repeat split. intros _. exists msg. split; [| done].
  rewrite !elem_of_app. right. right. apply list_elem_of_here.
Qed.

Lemma pick_middle {A} (before after : list (string * A)) (x : string * A)
    (pred : A → bool) :
  pick (before ++ x :: after) pred
  = pick before pred ++ (if pred x.2 then [x] else []) ++ pick after pred.
Proof.
  unfold pick. rewrite filter_app, filter_cons.
  destruct (pred x.2) eqn:Hp; case_decide; done.
Qed.

Lemma pick_app {A} (before after : list (string * A)) (pred : A → bool) :
  pick (before ++ after) pred = pick before pred ++ pick after pred.
Proof. unfold pick. by rewrite filter_app. Qed.

Lemma getPackageUrl_fs (libid version hash : string) (fs : filesystem) :
  fs_of (getPackageUrl this w libid version hash fs) = fs.
Proof.
  unfold getPackageUrl. rewrite run_bind. cbn [emit fs_of result_of fst snd].
  destruct (download_urls w _) as [err | [u |]]; [done | | done].
  by destruct (truthy_string u).
Qed.

Lemma getPackageUrl_missing (libid version hash : string) (fs : filesystem) :
  download_urls w (download_urls_url this libid version hash) = UrlsJson None
  ∨ download_urls w (download_urls_url this libid version hash) = UrlsJson (Some EmptyString) →
  getPackageUrl this w libid version hash fs
  = ([Fetch (download_urls_url this libid version hash)], fs,
     Rejected "Unable to get package download URL from conan.").
Proof.
  unfold getPackageUrl. intros [-> | ->]; by rewrite run_bind.
Qed.

Lemma resolve_and_extract_result (libId lname lversion hash dirPath : string)
    (fs : filesystem) :
  result_of (resolve_and_extract this w libId lname lversion hash dirPath fs)
  = match result_of (getPackageUrl this w lname lversion hash fs) with
    | Fulfilled downloadUrl =>
        result_of (downloadAndExtractPackage this w libId lversion dirPath downloadUrl fs)
    | Rejected error => Rejected error
    end.
Proof.
  unfold resolve_and_extract. rewrite run_bind. cbn [result_of snd].
  rewrite getPackageUrl_fs.
  by destruct (result_of (getPackageUrl this w lname lversion hash fs)).
Qed.

(** A rejected download rejects the aggregate. *)
Lemma download_with_rejected (key : Key) (dirPath : string)
    (before after : list (string * LibraryVersion)) (libId : string)
    (details : LibraryVersion) (builds : possibleBuilds) (hash error : string)
    (fs : filesystem) :
  packagedheaders details || hasBinariesToLink (super this) details = true →
  search w (search_url this (or_else (lookupname details) libId)
              (or_else (lookupversion details) (version details)))
  = SearchJson (Some builds) →
  findMatchingHash (getConanBuildProperties this key) builds = Some hash →
  truthy_string hash = true →
  result_of (resolve_and_extract this w libId (or_else (lookupname details) libId)
               (or_else (lookupversion details) (version details)) hash dirPath
               (fs_of (download this w key dirPath before fs)))
  = Rejected error →
  ∃ reason,
    result_of (download this w key dirPath (before ++ (libId, details) :: after) fs)
    = Rejected reason.
Proof.
  intros Hkept Hlist Hhash Htruthy. rewrite !download_run. cbn zeta.
  cbn [trace_of fs_of result_of fst snd].
  rewrite !start_listings_app, (proj2 (start_listings_cons _ _ _ _)), Hkept, Hlist.
  set (bp := getConanBuildProperties this key) in *.
  set (lb := Build_LibraryBuilds _ _ _ _ _).
  rewrite !provision_all_app. cbn zeta. cbn [trace_of fs_of result_of fst snd].
  rewrite !provision_all_cons. cbn zeta. cbn [trace_of fs_of result_of fst snd].
  intros Hrej.
  rewrite (provision_one_matched bp dirPath lb builds hash _ eq_refl Hhash Htruthy).
  cbn [lb lb_id lb_lookupname lb_lookupversion lb_version]. rewrite Hrej.
  apply (Promise_all_rejected _ error).
  rewrite !elem_of_app. right. left. left. apply list_elem_of_here.
Qed.

End Orchestration.

(** C4. A library whose listing fails (404, or a failed request) or offers no
    matching candidate does not fail the run: [download] and [setup] settle
    exactly as they do on the request set without that library, with the same
    files written, and a warning naming the library is logged whenever the
    library was looked up at all. *)
Theorem unavailable_library_is_omitted {Key : Type} (this : BuildEnvSetupCeConanDirect Key)
    (w : world) (key : Key) (dirPath : string)
    (before after : list (string * LibraryVersion)) (libId : string)
    (details : LibraryVersion) (binary : bool) (fs : filesystem) :
  let lname := or_else (lookupname details) libId in
  let lversion := or_else (lookupversion details) (version details) in
  let listing := search w (search_url this lname lversion) in
  let buildProperties := getConanBuildProperties this key in
  let with_it := before ++ (libId, details) :: after in
  let without := before ++ after in
  listing = SearchNotFound
  ∨ (∃ err, listing = SearchFetchFailed err)
  ∨ (∃ builds, listing = SearchJson (Some builds)
               ∧ findMatchingHash buildProperties builds = None) →
  result_of (download this w key dirPath with_it fs)
  = result_of (download this w key dirPath without fs)
  ∧ fs_of (download this w key dirPath with_it fs)
    = fs_of (download this w key dirPath without fs)
  ∧ result_of (setup this w key dirPath with_it binary fs)
    = result_of (setup this w key dirPath without binary fs)
  ∧ fs_of (setup this w key dirPath with_it binary fs)
    = fs_of (setup this w key dirPath without binary fs)
  ∧ (packagedheaders details || hasBinariesToLink (super this) details = true →
     ∃ msg,
       Log LWarn msg ∈ trace_of (download this w key dirPath with_it fs)
       ∧ (msg = "Library " +:+ (lname +:+ "/" +:+ lversion) +:+ " not available"
          ∨ msg = "No build found for " +:+ (lname +:+ "/" +:+ lversion) +:+ " matching "
                  +:+ JSON_stringify buildProperties)).
Proof.
  intros lname lversion listing buildProperties with_it without Hfail.
  assert (match listing with
          | SearchJson (Some builds) => findMatchingHash buildProperties builds = None
          | _ => True
          end) as Hskip.
  { destruct Hfail as [-> | [[err ->] | (builds & -> & Hnone)]]; done. }
  destruct (download_with_skipped this w key dirPath before after libId details fs Hskip)
    as (Hres & Hfs & Hwarn).
  split; [done |]. split; [done |]. split; [| split; [| done]].
  - unfold setup.
    destruct (negb (truthy (host this))); [done |].
    destruct (truthy (onlyonstaticliblink this) && negb binary); [done |].
    subst with_it without. rewrite pick_middle, pick_app.
    destruct (shouldDownloadPackage (super this) (libId, details).2); [| done].
    by apply download_with_skipped.
  - unfold setup.
    destruct (negb (truthy (host this))); [done |].
    destruct (truthy (onlyonstaticliblink this) && negb binary); [done |].
    subst with_it without. rewrite pick_middle, pick_app.
    destruct (shouldDownloadPackage (super this) (libId, details).2); [| done].
    by apply download_with_skipped.
Qed.

Lemma unavailable_library_is_omitted_witness :
  search (Fixture.server Fixture.mylib_tgz)
         (search_url Fixture.ceconan "other" "1.0") = SearchNotFound
  ∧ result_of (download Fixture.ceconan (Fixture.server Fixture.mylib_tgz) tt "/tmp/build"
                 [("mylib", Fixture.mylib); ("other", Fixture.mylib)] ∅)
    = result_of (download Fixture.ceconan (Fixture.server Fixture.mylib_tgz) tt "/tmp/build"
                   [("mylib", Fixture.mylib)] ∅).
Proof.
  split; [by vm_compute |].
  apply (unavailable_library_is_omitted Fixture.ceconan (Fixture.server Fixture.mylib_tgz)
           tt "/tmp/build" [("mylib", Fixture.mylib)] [] "other" Fixture.mylib true ∅).
  left. by vm_compute.
Defined.

(** C5. Once a hash is matched for a library, failure is fatal.
    [getPackageUrl] rejects with "Unable to get package download URL from
    conan." when the answer has no ['conan_package.tgz'] URL; a rejection of
    [getPackageUrl], or of [downloadAndExtractPackage] on the resolved URL, is
    the rejection of that library's download; and a rejected download makes
    the promise of [download], and of [setup] when it does not return early
    and picks the library, reject. *)
Theorem failure_after_match_is_fatal {Key : Type} (this : BuildEnvSetupCeConanDirect Key)
    (w : world) (key : Key) (dirPath : string)
    (before after : list (string * LibraryVersion)) (libId : string)
    (details : LibraryVersion) (builds : possibleBuilds) (hash : string)
    (binary : bool) (fs : filesystem) :
  let lname := or_else (lookupname details) libId in
  let lversion := or_else (lookupversion details) (version details) in
  let with_it := before ++ (libId, details) :: after in
  let attempt := resolve_and_extract this w libId lname lversion hash dirPath in
  packagedheaders details || hasBinariesToLink (super this) details = true →
  search w (search_url this lname lversion) = SearchJson (Some builds) →
  findMatchingHash (getConanBuildProperties this key) builds = Some hash →
  truthy_string hash = true →
  (∀ fs1,
     download_urls w (download_urls_url this lname lversion hash) = UrlsJson None →
     result_of (getPackageUrl this w lname lversion hash fs1)
     = Rejected "Unable to get package download URL from conan.")
  ∧ (∀ fs1 error,
       result_of (getPackageUrl this w lname lversion hash fs1) = Rejected error →
       result_of (attempt fs1) = Rejected error)
  ∧ (∀ fs1 url,
       result_of (getPackageUrl this w lname lversion hash fs1) = Fulfilled url →
       result_of (attempt fs1)
       = result_of (downloadAndExtractPackage this w libId lversion dirPath url fs1))
  ∧ (∀ error,
       result_of (attempt (fs_of (download this w key dirPath before fs))) = Rejected error →
       ∃ reason, result_of (download this w key dirPath with_it fs) = Rejected reason)
  ∧ (∀ error,
       truthy (host this) = true →
       truthy (onlyonstaticliblink this) && negb binary = false →
       shouldDownloadPackage (super this) details = true →
       result_of (attempt (fs_of (setup this w key dirPath before binary fs)))
       = Rejected error →
       ∃ reason, result_of (setup this w key dirPath with_it binary fs) = Rejected reason).
Proof.
  intros lname lversion with_it attempt Hkept Hlist Hhash Htruthy.
  split; [| split; [| split; [| split]]].
  - intros fs1 Hurl. rewrite getPackageUrl_missing; [done | by left].
  - intros fs1 error Hrej. subst attempt. cbn beta.
    by rewrite resolve_and_extract_result, Hrej.
  - intros fs1 url Hurl. subst attempt. cbn beta.
    by rewrite resolve_and_extract_result, Hurl.
  - intros error Hrej.
    by apply (download_with_rejected this w key dirPath before after libId details
                builds hash error fs).
  - intros error Hhost Honly Hpick. unfold setup. rewrite Hhost, Honly. cbn [negb].
    intros Hrej. subst with_it. rewrite pick_middle. cbn [snd]. rewrite Hpick.
    by apply (download_with_rejected this w key dirPath _ _ libId details
                builds hash error fs).
Qed.

Lemma failure_after_match_is_fatal_witness :
  findMatchingHash (getConanBuildProperties Fixture.ceconan tt) [("abc123", Fixture.exact)]
  = Some "abc123"
  ∧ ∃ reason,
      result_of (download Fixture.ceconan Fixture.server_without_url tt "/tmp/build"
                   [("mylib", Fixture.mylib); ("other", Fixture.mylib)] ∅)
      = Rejected reason.
Proof.
  split; [by vm_compute |].
  pose proof (failure_after_match_is_fatal Fixture.ceconan Fixture.server_without_url
                tt "/tmp/build" [] [("other", Fixture.mylib)] "mylib" Fixture.mylib
                [("abc123", Fixture.exact)] "abc123" true ∅) as H.
  cbn zeta in H.
  destruct H as (_ & _ & _ & Hdownload & _).
  - reflexivity.
  - by vm_compute.
  - by vm_compute.
  - reflexivity.
  - apply (Hdownload "Unable to get package download URL from conan.").
    by vm_compute.
Defined.
